(** * mug-fe: the request lifecycle of [src/App.tsx]

    A shallow embedding of the client in [src/App.tsx]: the toast store, the
    API client ([apiGet], [apiPost]), [parseApiError], the two chat surfaces
    ([ChatPage], [BlockExplorerChat]), [RegisterPage.onSubmit], the mount
    effect of [App] and the expiry effect of [ToastContainer].

    JavaScript strings are sequences of UTF-16 code units, the values that
    come back from the network are JSON values, and an [async] function is a
    tree of effects that is run up to its next [await].  The state of a
    component lives in the module of its name ([ChatPage.messages],
    [ChatPage.setLoading]); its handlers, which need the effects, come
    after them as [ChatPage_sendMessage], [BlockExplorerChat_sendMessage],
    [RegisterPage_onSubmit] and [App_effect]. *)

From Stdlib Require Import List NArith ZArith Bool String Ascii Lia.
Import ListNotations.
Local Open Scope N_scope.
Set Warnings "-register-all".

(** ** JavaScript strings *)

(** A string is its sequence of UTF-16 code units. *)
Definition jsstring := list N.

(** The code units of an ASCII literal of the source. *)
Definition lit (s : string) : jsstring :=
  map N_of_ascii (list_ascii_of_string s).

Definition jsstring_eqb (a b : jsstring) : bool :=
  if list_eq_dec N.eq_dec a b then true else false.

Definition is_empty (s : jsstring) : bool :=
  match s with [] => true | _ :: _ => false end.

(** [WhiteSpace] and [LineTerminator] of ECMAScript, the code points that
    [String.prototype.trim] strips: TAB, LF, VT, FF, CR, SP, NBSP, U+1680,
    U+2000..U+200A, U+2028, U+2029, U+202F, U+205F, U+3000 and U+FEFF. *)
Definition is_js_space (c : N) : bool :=
  existsb (N.eqb c)
    [9; 10; 11; 12; 13; 32; 160; 5760; 8232; 8233; 8239; 8287; 12288; 65279]
  || ((8192 <=? c) && (c <=? 8202)).

Fixpoint trimStart (s : jsstring) : jsstring :=
  match s with
  | [] => []
  | c :: r => if is_js_space c then trimStart r else s
  end.

Definition trimEnd (s : jsstring) : jsstring := rev (trimStart (rev s)).

(** [s.trim()] *)
Definition trim (s : jsstring) : jsstring := trimEnd (trimStart s).

(** A string all of whose code units are white space. *)
Definition whitespace_only (s : jsstring) : bool := forallb is_js_space s.

(** ** Numbers *)

(** The numbers the client meets are model identifiers.  An integer is kept
    as its value; any other number is kept as the text it was read from and
    is never inspected. *)
Inductive jsnumber : Type :=
| NumInt (z : Z)
| NumOf (src : jsstring).

Definition is_digit (c : N) : bool := (48 <=? c) && (c <=? 57).

Fixpoint span_digits (s : jsstring) : jsstring * jsstring :=
  match s with
  | c :: r =>
      if is_digit c then let (ds, rest) := span_digits r in (c :: ds, rest)
      else ([], s)
  | [] => ([], [])
  end.

(** Value of a run of decimal digits, most significant first. *)
Definition digits_value (ds : jsstring) : Z :=
  fold_left (fun acc c => (10 * acc + Z.of_N (c - 48))%Z) ds 0%Z.

(** Decimal digits of a positive number, by repeated division; [fuel] bounds
    the number of digits. *)
Fixpoint digits_of (fuel : nat) (n : N) (acc : jsstring) : jsstring :=
  match fuel with
  | O => acc
  | S f =>
      let acc' := (48 + n mod 10) :: acc in
      if n / 10 =? 0 then acc' else digits_of f (n / 10) acc'
  end.

(** [String(n)] on an integer that a double holds exactly and prints
    without an exponent: the decimal digits, with [-] before a negative.
    This is what [String] gives on the safe integers, see [isSafeInteger];
    outside them a double rounds the integer and may print an exponent, so
    a property that reads [String_] as [String] carries that bound. *)
Definition String_ (z : Z) : jsstring :=
  let n := Z.abs_N z in
  let ds := digits_of (S (N.to_nat (N.log2 n))) n [] in
  if (z <? 0)%Z then 45 :: ds else ds.

(** [Number.isSafeInteger] *)
Definition isSafeInteger (z : Z) : bool :=
  (Z.abs z <=? 9007199254740991)%Z.

(** [Number(s)] on a string: white space is trimmed, the empty string is 0,
    an optionally signed run of decimal digits is its value; the other
    strings (fractions, exponents, hexadecimal, [Infinity], and the ones that
    give [NaN]) are left uninterpreted.  The value of a run of digits is
    what [Number] gives when it is a safe integer; above that [Number]
    rounds to a double, which is not modelled. *)
Definition Number (s : jsstring) : jsnumber :=
  let t := trim s in
  let unsigned (u : jsstring) (neg : bool) :=
    match span_digits u with
    | ((_ :: _) as ds, []) =>
        NumInt (if neg then - digits_value ds else digits_value ds)%Z
    | _ => NumOf s
    end in
  match t with
  | [] => NumInt 0
  | c :: u =>
      if c =? 45 then unsigned u true
      else if c =? 43 then unsigned u false
      else unsigned t false
  end.

(** ** JSON values and [JSON.parse] *)

Inductive json : Type :=
| JNull
| JBool (b : bool)
| JNumber (n : jsnumber)
| JString (s : jsstring)
| JArray (items : list json)
| JObject (members : list (jsstring * json)).

(** JSON white space: TAB, LF, CR, SP. *)
Definition is_json_ws (c : N) : bool :=
  existsb (N.eqb c) [9; 10; 13; 32].

Fixpoint skip_ws (s : jsstring) : jsstring :=
  match s with
  | c :: r => if is_json_ws c then skip_ws r else s
  | [] => []
  end.

Definition hex_value (c : N) : option N :=
  if (48 <=? c) && (c <=? 57) then Some (c - 48)
  else if (97 <=? c) && (c <=? 102) then Some (c - 87)
  else if (65 <=? c) && (c <=? 70) then Some (c - 55)
  else None.

Definition hex4 (a b c d : N) : option N :=
  match hex_value a, hex_value b, hex_value c, hex_value d with
  | Some x, Some y, Some z, Some w => Some (((x * 16 + y) * 16 + z) * 16 + w)
  | _, _, _, _ => None
  end.

(** The characters of a string literal after its opening quote, up to and
    including the closing quote. *)
Fixpoint parse_chars (s : jsstring) : option (jsstring * jsstring) :=
  let cons_to c r :=
    match r with Some (cs, rest) => Some (c :: cs, rest) | None => None end in
  match s with
  | [] => None
  | 34 :: r => Some ([], r)
  | 92 :: e :: r =>
      match e with
      | 34 => cons_to 34 (parse_chars r)
      | 92 => cons_to 92 (parse_chars r)
      | 47 => cons_to 47 (parse_chars r)
      | 98 => cons_to 8 (parse_chars r)
      | 102 => cons_to 12 (parse_chars r)
      | 110 => cons_to 10 (parse_chars r)
      | 114 => cons_to 13 (parse_chars r)
      | 116 => cons_to 9 (parse_chars r)
      | 117 =>
          match r with
          | a :: b :: c :: d :: r' =>
              match hex4 a b c d with
              | Some u => cons_to u (parse_chars r')
              | None => None
              end
          | _ => None
          end
      | _ => None
      end
  | 92 :: [] => None
  | c :: r => if c <? 32 then None else cons_to c (parse_chars r)
  end.

(** A JSON number: an optional minus sign; an integer part that is 0 or
    starts with a non-zero digit; an optional fraction, a dot and digits; an
    optional exponent, e or E, an optional sign and digits.  The sign of a
    negative zero is not kept. *)
Definition parse_number (s : jsstring) : option (jsnumber * jsstring) :=
  let (neg, s1) := match s with 45 :: r => (true, r) | _ => (false, s) end in
  let (ip, s2) := span_digits s1 in
  let int_ok :=
    match ip with
    | [] => false
    | 48 :: _ :: _ => false
    | _ => true
    end in
  if negb int_ok then None else
  let frac :=
    match s2 with
    | 46 :: r =>
        let (fs, s3) := span_digits r in
        if is_empty fs then None else Some (46 :: fs, s3)
    | _ => Some ([], s2)
    end in
  match frac with
  | None => None
  | Some (fl, s3) =>
      let expo :=
        match s3 with
        | e :: r =>
            if (e =? 101) || (e =? 69) then
              let (sg, r1) :=
                match r with
                | 43 :: r' => ([43], r')
                | 45 :: r' => ([45], r')
                | _ => ([], r)
                end in
              let (es, s4) := span_digits r1 in
              if is_empty es then None else Some (e :: sg ++ es, s4)
            else Some ([], s3)
        | [] => Some ([], s3)
        end in
      match expo with
      | None => None
      | Some (el, s4) =>
          if is_empty fl && is_empty el
          then Some (NumInt (if neg then - digits_value ip
                             else digits_value ip)%Z, s4)
          else Some (NumOf ((if neg then [45] else []) ++ ip ++ fl ++ el), s4)
      end
  end.

(** Recursive descent over the text; every call on a sub-value spends one
    unit of [fuel]. *)
Fixpoint parse_value (fuel : nat) (s : jsstring) : option (json * jsstring) :=
  match fuel with
  | O => None
  | S f =>
      match skip_ws s with
      | 110 :: 117 :: 108 :: 108 :: r => Some (JNull, r)
      | 116 :: 114 :: 117 :: 101 :: r => Some (JBool true, r)
      | 102 :: 97 :: 108 :: 115 :: 101 :: r => Some (JBool false, r)
      | 34 :: r =>
          match parse_chars r with
          | Some (cs, rest) => Some (JString cs, rest)
          | None => None
          end
      | 91 :: r =>
          match skip_ws r with
          | 93 :: r' => Some (JArray [], r')
          | _ =>
              match parse_elements f r with
              | Some (vs, rest) => Some (JArray vs, rest)
              | None => None
              end
          end
      | 123 :: r =>
          match skip_ws r with
          | 125 :: r' => Some (JObject [], r')
          | _ =>
              match parse_members f r with
              | Some (ms, rest) => Some (JObject ms, rest)
              | None => None
              end
          end
      | t =>
          match parse_number t with
          | Some (n, rest) => Some (JNumber n, rest)
          | None => None
          end
      end
  end
with parse_elements (fuel : nat) (s : jsstring)
  : option (list json * jsstring) :=
  match fuel with
  | O => None
  | S f =>
      match parse_value f s with
      | Some (v, r) =>
          match skip_ws r with
          | 44 :: r' =>
              match parse_elements f r' with
              | Some (vs, rest) => Some (v :: vs, rest)
              | None => None
              end
          | 93 :: r' => Some ([v], r')
          | _ => None
          end
      | None => None
      end
  end
with parse_members (fuel : nat) (s : jsstring)
  : option (list (jsstring * json) * jsstring) :=
  match fuel with
  | O => None
  | S f =>
      match skip_ws s with
      | 34 :: r =>
          match parse_chars r with
          | Some (key, r1) =>
              match skip_ws r1 with
              | 58 :: r2 =>
                  match parse_value f r2 with
                  | Some (v, r3) =>
                      match skip_ws r3 with
                      | 44 :: r4 =>
                          match parse_members f r4 with
                          | Some (ms, rest) => Some ((key, v) :: ms, rest)
                          | None => None
                          end
                      | 125 :: r4 => Some ([(key, v)], r4)
                      | _ => None
                      end
                  | None => None
                  end
              | _ => None
              end
          | None => None
          end
      | _ => None
      end
  end.

(** [JSON.parse(text)]: [None] stands for the [SyntaxError] it throws. *)
Definition JSON_parse (text : jsstring) : option json :=
  match parse_value (2 * List.length text + 2) text with
  | Some (v, rest) => if is_empty (skip_ws rest) then Some v else None
  | None => None
  end.

(** The value of property [name] of an object that [JSON.parse] built: the
    last member with that key, [None] ([undefined]) when there is none. *)
Fixpoint lookup_last (name : jsstring) (ms : list (jsstring * json))
  : option json :=
  match ms with
  | [] => None
  | (k, v) :: r =>
      match lookup_last name r with
      | Some v' => Some v'
      | None => if jsstring_eqb k name then Some v else None
      end
  end.

(** ** Thrown values and [parseApiError] *)

(** What a [catch] clause can receive: an [Error] instance with its
    [message], or any other value, with the result of [String(e)] when that
    call returns. *)
Inductive thrown : Type :=
| ErrorObj (message : jsstring)
| NonError (str : option jsstring).

(** [s || d] on strings: the empty string is falsy. *)
Definition or_else (s d : jsstring) : jsstring :=
  if is_empty s then d else s.

Definition parseApiError (e : thrown) : jsstring :=
  match e with
  | ErrorObj message => or_else message (lit "Request failed")
  | NonError (Some s) => s
  | NonError None => lit "Request failed"
  end.

(** ** The toast store *)

Inductive ToastType : Type := info | error.

Record Toast : Type := mkToast {
  toast_id : N;
  toast_text : jsstring;
  toast_type : option ToastType
}.

(** [Omit<Toast, 'id'>] *)
Record ToastInit : Type := mkToastInit {
  init_text : jsstring;
  init_type : option ToastType
}.

Module ToastStore.
(** [push], with the value of [Date.now() + Math.random()] as [id]. *)
Definition push (id : N) (t : ToastInit) (toasts : list Toast)
  : list Toast :=
  toasts ++ [mkToast id (init_text t) (init_type t)].

Definition remove (id : N) (toasts : list Toast) : list Toast :=
  filter (fun x => negb (toast_id x =? id)) toasts.
End ToastStore.

(** ** Requests and responses *)

Inductive Method : Type := GET | POST.

(** The arguments of a [fetch] call.  [body] is the value handed to
    [JSON.stringify]; [signal] names the [AbortController] whose signal was
    passed, if one was. *)
Record request : Type := mkRequest {
  url : jsstring;
  method : Method;
  headers : list (jsstring * jsstring);
  body : option json;
  signal : option nat
}.

(** Reading the body of a response either yields its text or rejects. *)
Inductive body_result : Type :=
| BodyText (s : jsstring)
| BodyFail (e : thrown).

Record response : Type := mkResponse {
  status : N;
  body_read : body_result
}.

(** [res.ok]: the status is in the range 200-299. *)
Definition ok (res : response) : bool :=
  (200 <=? status res) && (status res <=? 299).

(** How a [fetch] settles: the promise rejects, or resolves to a response. *)
Inductive fetch_outcome : Type :=
| Rejected (e : thrown)
| Responded (res : response).

(** ** Component state *)

Inductive Role : Type := user | ai.

(** [ChatMessage].  The types of [text] and [via] are not checked when the
    program runs: they hold whatever the response held, [None] being
    [undefined]. *)
Record ChatMessage : Type := mkChatMessage {
  id : jsstring;
  role : Role;
  text : option json;
  via : option json
}.

Module App.
Record state : Type := mk {
  llms : option json;
  loadingModels : bool
}.
Definition init : state := mk None false.
Definition setLlms (v : json) (s : state) : state :=
  mk (Some v) (loadingModels s).
Definition setLoadingModels (b : bool) (s : state) : state :=
  mk (llms s) b.
End App.

Module ChatPage.
Record state : Type := mk {
  messages : list ChatMessage;
  input : jsstring;
  loading : bool;
  selectedModel : jsstring
}.
Definition init : state := mk [] [] false (lit "auto").
Definition setMessages (f : list ChatMessage -> list ChatMessage)
  (s : state) : state :=
  mk (f (messages s)) (input s) (loading s) (selectedModel s).
Definition setInput (v : jsstring) (s : state) : state :=
  mk (messages s) v (loading s) (selectedModel s).
Definition setLoading (b : bool) (s : state) : state :=
  mk (messages s) (input s) b (selectedModel s).
Definition setSelectedModel (v : jsstring) (s : state) : state :=
  mk (messages s) (input s) (loading s) v.
End ChatPage.

Module BlockExplorerChat.
Record state : Type := mk {
  messages : list ChatMessage;
  input : jsstring;
  loading : bool
}.
Definition init : state := mk [] [] false.
Definition setMessages (f : list ChatMessage -> list ChatMessage)
  (s : state) : state :=
  mk (f (messages s)) (input s) (loading s).
Definition setInput (v : jsstring) (s : state) : state :=
  mk (messages s) v (loading s).
Definition setLoading (b : bool) (s : state) : state :=
  mk (messages s) (input s) b.
End BlockExplorerChat.

Module RegisterPage.
Record state : Type := mk {
  modelName : jsstring;
  companyName : jsstring;
  baseUrl : jsstring;
  apiKey : jsstring;
  openAiCompatible : bool;
  submitting : bool
}.
Definition init : state := mk [] [] [] [] true false.
Definition setModelName (v : jsstring) (s : state) : state :=
  mk v (companyName s) (baseUrl s) (apiKey s) (openAiCompatible s)
     (submitting s).
Definition setCompanyName (v : jsstring) (s : state) : state :=
  mk (modelName s) v (baseUrl s) (apiKey s) (openAiCompatible s)
     (submitting s).
Definition setBaseUrl (v : jsstring) (s : state) : state :=
  mk (modelName s) (companyName s) v (apiKey s) (openAiCompatible s)
     (submitting s).
Definition setApiKey (v : jsstring) (s : state) : state :=
  mk (modelName s) (companyName s) (baseUrl s) v (openAiCompatible s)
     (submitting s).
Definition setOpenAiCompatible (v : bool) (s : state) : state :=
  mk (modelName s) (companyName s) (baseUrl s) (apiKey s) v (submitting s).
Definition setSubmitting (v : bool) (s : state) : state :=
  mk (modelName s) (companyName s) (baseUrl s) (apiKey s)
     (openAiCompatible s) v.
(** The five fields of the form, without the [submitting] flag. *)
Definition fields (s : state)
  : jsstring * jsstring * jsstring * jsstring * bool :=
  (modelName s, companyName s, baseUrl s, apiKey s, openAiCompatible s).
End RegisterPage.

(** The state of the components, one record each. *)
Record ui : Type := mkUi {
  app : App.state;
  chat : ChatPage.state;
  explorer : BlockExplorerChat.state;
  form : RegisterPage.state
}.

Definition in_app (f : App.state -> App.state) (u : ui) : ui :=
  mkUi (f (app u)) (chat u) (explorer u) (form u).
Definition in_chat (f : ChatPage.state -> ChatPage.state) (u : ui) : ui :=
  mkUi (app u) (f (chat u)) (explorer u) (form u).
Definition in_explorer
  (f : BlockExplorerChat.state -> BlockExplorerChat.state) (u : ui) : ui :=
  mkUi (app u) (chat u) (f (explorer u)) (form u).
Definition in_form (f : RegisterPage.state -> RegisterPage.state) (u : ui)
  : ui :=
  mkUi (app u) (chat u) (explorer u) (f (form u)).

(** ** Effects

    The body of a handler is a tree of the effects it performs, in program
    order.  [Await] is the point where an [async] function hands control
    back: the [fetch] has been issued and the rest of the body waits for the
    outcome.  [Spawn] is a call of an [async] function whose promise is not
    awaited. *)
Inductive prog (A : Type) : Type :=
| Ret (a : A)
| Throw (e : thrown)
| SetState (f : ui -> ui) (k : prog A)
| ToastPush (t : ToastInit) (k : prog A)
| RandomUUID (k : jsstring -> prog A)
| NewAbortController (k : nat -> prog A)
| Abort (c : nat) (k : prog A)
| Await (r : request) (k : fetch_outcome -> prog A)
| Spawn (p : prog unit) (k : prog A).

Arguments Ret {A} a.
Arguments Throw {A} e.
Arguments SetState {A} f k.
Arguments ToastPush {A} t k.
Arguments RandomUUID {A} k.
Arguments NewAbortController {A} k.
Arguments Abort {A} c k.
Arguments Await {A} r k.
Arguments Spawn {A} p k.

Fixpoint bind {A B : Type} (p : prog A) (f : A -> prog B) : prog B :=
  match p with
  | Ret a => f a
  | Throw e => Throw e
  | SetState g k => SetState g (bind k f)
  | ToastPush t k => ToastPush t (bind k f)
  | RandomUUID k => RandomUUID (fun u => bind (k u) f)
  | NewAbortController k => NewAbortController (fun c => bind (k c) f)
  | Abort c k => Abort c (bind k f)
  | Await r k => Await r (fun o => bind (k o) f)
  | Spawn q k => Spawn q (bind k f)
  end.

(** [try { p } catch (e) { h e }]: a rejection of a promise that [p] did
    not await does not reach [h]. *)
Fixpoint try_catch {A : Type} (p : prog A) (h : thrown -> prog A) : prog A :=
  match p with
  | Ret a => Ret a
  | Throw e => h e
  | SetState g k => SetState g (try_catch k h)
  | ToastPush t k => ToastPush t (try_catch k h)
  | RandomUUID k => RandomUUID (fun u => try_catch (k u) h)
  | NewAbortController k => NewAbortController (fun c => try_catch (k c) h)
  | Abort c k => Abort c (try_catch k h)
  | Await r k => Await r (fun o => try_catch (k o) h)
  | Spawn q k => Spawn q (try_catch k h)
  end.

(** [try { p } finally { q }]: [q] runs on both exits and the completion of
    [p] is kept when [q] completes normally. *)
Fixpoint finally {A : Type} (p : prog A) (q : prog unit) : prog A :=
  match p with
  | Ret a => bind q (fun _ => Ret a)
  | Throw e => bind q (fun _ => Throw e)
  | SetState g k => SetState g (finally k q)
  | ToastPush t k => ToastPush t (finally k q)
  | RandomUUID k => RandomUUID (fun u => finally (k u) q)
  | NewAbortController k => NewAbortController (fun c => finally (k c) q)
  | Abort c k => Abort c (finally k q)
  | Await r k => Await r (fun o => finally (k o) q)
  | Spawn p' k => Spawn p' (finally k q)
  end.

Declare Scope prog_scope.
Delimit Scope prog_scope with prog.
Notation "x <- p ;; k" := (bind p (fun x => k))
  (at level 61, p at next level, right associativity) : prog_scope.
Notation "p ;; k" := (bind p (fun _ => k))
  (at level 61, right associativity) : prog_scope.
Local Open Scope prog_scope.

Definition setState (f : ui -> ui) : prog unit := SetState f (Ret tt).
Definition toast_push (t : ToastInit) : prog unit := ToastPush t (Ret tt).
Definition randomUUID : prog jsstring := RandomUUID (fun u => Ret u).
Definition newAbortController : prog nat :=
  NewAbortController (fun c => Ret c).
Definition abort (c : nat) : prog unit := Abort c (Ret tt).
Definition spawn (p : prog unit) : prog unit := Spawn p (Ret tt).

(** [await fetch(url, init)] *)
Definition fetch (r : request) : prog response :=
  Await r (fun o =>
    match o with
    | Rejected e => Throw e
    | Responded res => Ret res
    end).

(** [await res.text()] *)
Definition res_text (res : response) : prog jsstring :=
  match body_read res with
  | BodyText s => Ret s
  | BodyFail e => Throw e
  end.

(** ** The event loop *)

(** What the environment supplies: the values of [crypto.randomUUID()] and
    of [Date.now() + Math.random()], by order of call. *)
Record oracle : Type := mkOracle {
  uuid_at : nat -> jsstring;
  toast_id_at : nat -> N
}.

(** The page between two turns of the event loop.  [state] is the
    component state that is committed when a turn ends: within a turn the
    setters only queue their updates, no handler reads the state again
    before it yields, and the queue is applied in the order of the calls,
    so applying each update as it is called gives the state of the end of
    the turn.  [net] lists the [fetch] calls made so far, oldest first; the
    second component of an entry is the state that the setter calls made
    before the [fetch] call amount to, which is a record of the order of
    the calls and not of what was committed or rendered at that moment.
    [pending] holds the bodies that wait for a [fetch] to settle; [aborted]
    lists the controllers whose [abort] was called; [onEnter] holds the
    [input] and [selectedModel] that the [keydown] listener of [ChatPage]
    closed over. *)
Record world : Type := mkWorld {
  state : ui;
  toasts : list Toast;
  net : list (request * ui);
  pending : list (request * (fetch_outcome -> prog unit));
  controllers : nat;
  aborted : list nat;
  unhandled : list thrown;
  env : oracle;
  uuid_next : nat;
  toast_next : nat;
  onEnter : jsstring * jsstring
}.

Definition set_state (f : ui -> ui) (w : world) : world :=
  mkWorld (f (state w)) (toasts w) (net w) (pending w) (controllers w)
    (aborted w) (unhandled w) (env w) (uuid_next w) (toast_next w)
    (onEnter w).

(** [toast.push(t)]: the store draws the id and appends. *)
Definition store_push (t : ToastInit) (w : world) : world :=
  mkWorld (state w)
    (ToastStore.push (toast_id_at (env w) (toast_next w)) t (toasts w))
    (net w) (pending w) (controllers w) (aborted w) (unhandled w) (env w)
    (uuid_next w) (S (toast_next w)) (onEnter w).

Definition next_uuid (w : world) : jsstring := uuid_at (env w) (uuid_next w).

Definition drew_uuid (w : world) : world :=
  mkWorld (state w) (toasts w) (net w) (pending w) (controllers w)
    (aborted w) (unhandled w) (env w) (S (uuid_next w)) (toast_next w)
    (onEnter w).

Definition new_controller (w : world) : world :=
  mkWorld (state w) (toasts w) (net w) (pending w) (S (controllers w))
    (aborted w) (unhandled w) (env w) (uuid_next w) (toast_next w)
    (onEnter w).

Definition mark_aborted (c : nat) (w : world) : world :=
  mkWorld (state w) (toasts w) (net w) (pending w) (controllers w)
    (c :: aborted w) (unhandled w) (env w) (uuid_next w) (toast_next w)
    (onEnter w).

Definition issue (r : request) (k : fetch_outcome -> prog unit) (w : world)
  : world :=
  mkWorld (state w) (toasts w) (net w ++ [(r, state w)])
    (pending w ++ [(r, k)]) (controllers w) (aborted w) (unhandled w)
    (env w) (uuid_next w) (toast_next w) (onEnter w).

Definition set_pending (p : list (request * (fetch_outcome -> prog unit)))
  (w : world) : world :=
  mkWorld (state w) (toasts w) (net w) p (controllers w) (aborted w)
    (unhandled w) (env w) (uuid_next w) (toast_next w) (onEnter w).

Definition set_onEnter (c : jsstring * jsstring) (w : world) : world :=
  mkWorld (state w) (toasts w) (net w) (pending w) (controllers w)
    (aborted w) (unhandled w) (env w) (uuid_next w) (toast_next w) c.

(** How a body left the turn: it returned, it threw, or it is waiting at an
    [await]. *)
Inductive completion (A : Type) : Type :=
| Returned (a : A)
| Threw (e : thrown)
| Suspended.

Arguments Returned {A} a.
Arguments Threw {A} e.
Arguments Suspended {A}.

(** A rejection nobody handles is only recorded. *)
Definition note_unhandled {A : Type} (c : completion A) (w : world) : world :=
  match c with
  | Threw e =>
      mkWorld (state w) (toasts w) (net w) (pending w) (controllers w)
        (aborted w) (unhandled w ++ [e]) (env w) (uuid_next w) (toast_next w)
        (onEnter w)
  | _ => w
  end.

(** Run a body until it returns, throws or reaches an [await]: one turn.
    The world it gives is the page once the body has yielded and the
    queued updates are committed. *)
Fixpoint run {A : Type} (p : prog A) (w : world) : completion A * world :=
  match p with
  | Ret a => (Returned a, w)
  | Throw e => (Threw e, w)
  | SetState f k => run k (set_state f w)
  | ToastPush t k => run k (store_push t w)
  | RandomUUID k => run (k (next_uuid w)) (drew_uuid w)
  | NewAbortController k => run (k (controllers w)) (new_controller w)
  | Abort c k => run k (mark_aborted c w)
  | Await r k => (Suspended, issue r (fun o => bind (k o) (fun _ => Ret tt)) w)
  | Spawn q k => let (c, w1) := run q w in run k (note_unhandled c w1)
  end.

(** A handler called by the browser: its promise is not awaited. *)
Definition run_task (p : prog unit) (w : world) : world :=
  let (c, w1) := run p w in note_unhandled c w1.

Fixpoint remove_nth {X : Type} (i : nat) (l : list X) : list X :=
  match l, i with
  | [], _ => []
  | _ :: r, O => r
  | x :: r, S j => x :: remove_nth j r
  end.

(** The rejection of a [fetch] whose signal was aborted. *)
Definition AbortError : thrown :=
  ErrorObj (lit "signal is aborted without reason").

(** What the [fetch] of [r] settles to when the server side of it ends in
    [o]: a request that carries the signal of an aborted controller rejects
    with an [AbortError], any other request settles to [o]. *)
Definition network (r : request) (o : fetch_outcome) (w : world)
  : fetch_outcome :=
  match signal r with
  | Some c => if existsb (Nat.eqb c) (aborted w) then Rejected AbortError else o
  | None => o
  end.

(** The [i]-th pending [fetch] settles and the body that awaited it runs on
    to its end or to its next [await]. *)
Definition settle (i : nat) (o : fetch_outcome) (w : world) : world :=
  match nth_error (pending w) i with
  | None => w
  | Some (r, k) =>
      run_task (k (network r o w)) (set_pending (remove_nth i (pending w)) w)
  end.

(** ** The client *)

Module Llm.
Record t : Type := mk {
  id : Z;
  modelName : jsstring;
  companyName : jsstring;
  baseUrl : option jsstring;
  apiKey : option jsstring;
  openAiCompatible : bool
}.
End Llm.

(** The [value] attributes of the [select] of [ChatPage]: ["auto"], then
    [String(m.id)] for each model. *)
Definition option_values (llms : list Llm.t) : list jsstring :=
  lit "auto" :: map (fun m => String_ (Llm.id m)) llms.

Definition API_BASE : jsstring := lit "http://localhost:8080/api/v1/llm".

Definition json_headers : list (jsstring * jsstring) :=
  [(lit "Content-Type", lit "application/json")].

(** [s || null] *)
Definition or_null (s : jsstring) : json :=
  if is_empty s then JNull else JString s.

(** The message text that [BlockExplorerChat.sendMessage] takes from the raw
    body: [md] after the inner [try]. *)
Definition resolve_md (raw : jsstring) : jsstring :=
  match JSON_parse raw with
  | Some (JString parsed) => parsed
  | Some (JObject ms) =>
      match lookup_last (lit "response") ms with
      | Some (JString r) => r
      | _ => raw
      end
  | _ => raw
  end.

(** ** [ToastContainer]: the expiry effect

    The effect of [ToastContainer] depends on [toasts].  Every [push] and
    every [remove] stores a new array, so the component renders again, the
    cleanup of the previous run clears all the timers that run had set, and
    the body sets one timer of 3500 ms for every toast that is in the list
    now.  Time is counted in milliseconds; the effect runs before another
    timer fires. *)
Module ToastContainer.

Record timer : Type := mkTimer {
  target : N;
  due : N
}.

Record page : Type := mkPage {
  now : N;
  toasts : list Toast;
  timers : list timer
}.

Definition initial : page := mkPage 0 [] [].

(** Cleanup of the previous run, then the body of the effect. *)
Definition effect (p : page) : page :=
  mkPage (now p) (toasts p)
    (map (fun t => mkTimer (toast_id t) (now p + 3500)) (toasts p)).

Definition push (id : N) (t : ToastInit) (p : page) : page :=
  effect (mkPage (now p) (ToastStore.push id t (toasts p)) (timers p)).

Definition remove (id : N) (p : page) : page :=
  effect (mkPage (now p) (ToastStore.remove id (toasts p)) (timers p)).

(** The first timer, in the order they were set, that is due by [t]. *)
Definition next_due (t : N) (p : page) : option timer :=
  find (fun x => due x <=? t) (timers p).

Definition at_time (t : N) (p : page) : page :=
  mkPage (N.max (now p) t) (toasts p) (timers p).

(** Let time pass until [t]: a timer that comes due fires at its time and
    calls [remove] on its toast. *)
Fixpoint advance (fuel : nat) (t : N) (p : page) : page :=
  match fuel with
  | O => at_time t p
  | S f =>
      match next_due t p with
      | Some x => advance f t (remove (target x) (at_time (due x) p))
      | None => at_time t p
      end
  end.

(** Every firing removes a toast, so one round per toast is enough. *)
Definition wait_until (t : N) (p : page) : page :=
  advance (S (List.length (toasts p))) t p.

Definition present (id : N) (p : page) : bool :=
  existsb (fun x => toast_id x =? id) (toasts p).

End ToastContainer.

Section Client.

(** The messages that the engine puts in the errors it throws itself: in
    the [SyntaxError] of [JSON.parse] on a text, and in the [TypeError] of
    reading a property of [null]. *)
Variable syntax_error_message : jsstring -> jsstring.
Variable type_error_message : jsstring -> jsstring.

(** [await res.json()] *)
Definition res_json (res : response) : prog json :=
  match body_read res with
  | BodyText s =>
      match JSON_parse s with
      | Some v => Ret v
      | None => Throw (ErrorObj (syntax_error_message s))
      end
  | BodyFail e => Throw e
  end.

(** [data.name] for a name that no built-in prototype defines. *)
Definition get_field (data : json) (name : jsstring) : prog (option json) :=
  match data with
  | JNull => Throw (ErrorObj (type_error_message name))
  | JObject ms => Ret (lookup_last name ms)
  | _ => Ret None
  end.

Definition apiGet (path : jsstring) (signal : option nat) : prog json :=
  res <- fetch (mkRequest (API_BASE ++ path) GET [] None signal) ;;
  if negb (ok res)
  then (t <- res_text res ;; Throw (ErrorObj t))
  else res_json res.

Definition apiPost (path : jsstring) (body : json) (signal : option nat)
  : prog json :=
  res <- fetch (mkRequest (API_BASE ++ path) POST json_headers (Some body)
                  signal) ;;
  if negb (ok res)
  then (t <- res_text res ;; Throw (ErrorObj t))
  else res_json res.

Definition error_toast (e : thrown) : prog unit :=
  toast_push (mkToastInit (parseApiError e) (Some error)).

Definition reloadModels : prog unit :=
  spawn (try_catch
           (v <- apiGet (lit "/") None ;;
            setState (in_app (App.setLlms v)))
           error_toast).

(** The mount effect of [App]; it returns its cleanup. *)
Definition App_effect : prog (prog unit) :=
  c <- newAbortController ;;
  setState (in_app (App.setLoadingModels true)) ;;
  spawn (finally
           (try_catch
              (v <- apiGet (lit "/") None ;;
               setState (in_app (App.setLlms v)))
              error_toast)
           (setState (in_app (App.setLoadingModels false)))) ;;
  Ret (abort c).

Definition RegisterPage_onSubmit (onRegistered : prog unit)
  (modelName companyName baseUrl apiKey : jsstring)
  (openAiCompatible : bool) : prog unit :=
  if is_empty (trim modelName) || is_empty (trim companyName) then
    toast_push (mkToastInit (lit "Model name and company are required")
                  (Some error))
  else
    setState (in_form (RegisterPage.setSubmitting true)) ;;
    finally
      (try_catch
         (_ <- apiPost (lit "/register")
                 (JObject [(lit "modelName", JString modelName);
                           (lit "companyName", JString companyName);
                           (lit "baseUrl", or_null baseUrl);
                           (lit "apiKey", or_null apiKey);
                           (lit "openAiCompatible", JBool openAiCompatible)])
                 None ;;
          toast_push (mkToastInit (lit "Model registered") None) ;;
          setState (in_form (RegisterPage.setModelName [])) ;;
          setState (in_form (RegisterPage.setCompanyName [])) ;;
          setState (in_form (RegisterPage.setBaseUrl [])) ;;
          setState (in_form (RegisterPage.setApiKey [])) ;;
          setState (in_form (RegisterPage.setOpenAiCompatible true)) ;;
          onRegistered)
         error_toast)
      (setState (in_form (RegisterPage.setSubmitting false))).

Definition ChatPage_sendMessage (input selectedModel : jsstring)
  : prog unit :=
  let q := trim input in
  if is_empty q then Ret tt else
  setState (in_chat (ChatPage.setInput [])) ;;
  uid <- randomUUID ;;
  let userMsg := mkChatMessage uid user (Some (JString q)) None in
  setState (in_chat (ChatPage.setMessages (fun m => m ++ [userMsg]))) ;;
  setState (in_chat (ChatPage.setLoading true)) ;;
  finally
    (try_catch
       (let modelId :=
          if jsstring_eqb selectedModel (lit "auto") then JNull
          else JNumber (Number selectedModel) in
        data <- apiPost (lit "/chat")
                  (JObject [(lit "query", JString q);
                            (lit "modelId", modelId)])
                  None ;;
        uid' <- randomUUID ;;
        r <- get_field data (lit "response") ;;
        v <- get_field data (lit "response_generated_via") ;;
        let aiMsg := mkChatMessage uid' ai r v in
        setState (in_chat (ChatPage.setMessages (fun m => m ++ [aiMsg]))))
       error_toast)
    (setState (in_chat (ChatPage.setLoading false))).

Definition explorer_url : jsstring :=
  lit "http://localhost:8010/api/v1/transactions/chat".

Definition BlockExplorerChat_sendMessage (input : jsstring) : prog unit :=
  let q := trim input in
  if is_empty q then Ret tt else
  setState (in_explorer (BlockExplorerChat.setInput [])) ;;
  uid <- randomUUID ;;
  let userMsg := mkChatMessage uid user (Some (JString q)) None in
  setState (in_explorer
              (BlockExplorerChat.setMessages (fun m => m ++ [userMsg]))) ;;
  setState (in_explorer (BlockExplorerChat.setLoading true)) ;;
  finally
    (try_catch
       (res <- fetch (mkRequest explorer_url POST json_headers
                        (Some (JObject [(lit "query", JString q)])) None) ;;
        (if negb (ok res)
         then (t <- res_text res ;; Throw (ErrorObj t))
         else Ret tt) ;;
        raw <- res_text res ;;
        let md := resolve_md raw in
        uid' <- randomUUID ;;
        let aiMsg := mkChatMessage uid' ai (Some (JString md)) None in
        setState (in_explorer
                    (BlockExplorerChat.setMessages (fun m => m ++ [aiMsg]))))
       error_toast)
    (setState (in_explorer (BlockExplorerChat.setLoading false))).

(** *** The two chat surfaces *)

Inductive surface : Type := ModelChat | BlockExplorer.

(** [sendMessage] of a surface, on the [input] and, for the model chat,
    the [selectedModel] of the render it belongs to. *)
Definition sendMessage (sf : surface) (input selectedModel : jsstring)
  : prog unit :=
  match sf with
  | ModelChat => ChatPage_sendMessage input selectedModel
  | BlockExplorer => BlockExplorerChat_sendMessage input
  end.

Definition messages_of (sf : surface) (u : ui) : list ChatMessage :=
  match sf with
  | ModelChat => ChatPage.messages (chat u)
  | BlockExplorer => BlockExplorerChat.messages (explorer u)
  end.

Definition loading_of (sf : surface) (u : ui) : bool :=
  match sf with
  | ModelChat => ChatPage.loading (chat u)
  | BlockExplorer => BlockExplorerChat.loading (explorer u)
  end.

(** The last statement of [sendMessage]: [setLoading(false)] in the
    [finally] block. *)
Definition clear_loading (sf : surface) : ui -> ui :=
  match sf with
  | ModelChat => in_chat (ChatPage.setLoading false)
  | BlockExplorer => in_explorer (BlockExplorerChat.setLoading false)
  end.

(** One dispatch from start to end: the handler runs up to its [await],
    then its [fetch], the last one pending, settles to [o]. *)
Definition dispatch (sf : surface) (input selectedModel : jsstring)
  (o : fetch_outcome) (w : world) : world :=
  let w1 := run_task (sendMessage sf input selectedModel) w in
  settle (List.length (pending w)) o w1.

(** *** Events of [ChatPage] *)

(** After a render, the effect that registers the [keydown] listener runs
    again only when [input] changed: its dependencies are [[input]]. *)
Definition rerender_ChatPage (before : ui) (w : world) : world :=
  let s := chat (state w) in
  if jsstring_eqb (ChatPage.input (chat before)) (ChatPage.input s) then w
  else set_onEnter (ChatPage.input s, ChatPage.selectedModel s) w.

(** [onChange] of the textarea *)
Definition type_input (v : jsstring) (w : world) : world :=
  rerender_ChatPage (state w) (set_state (in_chat (ChatPage.setInput v)) w).

(** [onChange] of the select *)
Definition select_model (v : jsstring) (w : world) : world :=
  rerender_ChatPage (state w)
    (set_state (in_chat (ChatPage.setSelectedModel v)) w).

(** [onClick] of the Send button, which is disabled while
    [loading || !input.trim()]; it calls the [sendMessage] of the current
    render. *)
Definition click_send (w : world) : world :=
  let s := chat (state w) in
  if ChatPage.loading s || is_empty (trim (ChatPage.input s)) then w
  else rerender_ChatPage (state w)
         (run_task (ChatPage_sendMessage (ChatPage.input s)
                      (ChatPage.selectedModel s)) w).

(** Cmd/Ctrl + Enter: the listener calls the [sendMessage] it closed
    over. *)
Definition ctrl_enter (w : world) : world :=
  rerender_ChatPage (state w)
    (run_task (ChatPage_sendMessage (fst (onEnter w)) (snd (onEnter w))) w).

(** *** Mounting and unmounting [App] *)

Definition mount_App (w : world) : option (prog unit) * world :=
  match run App_effect w with
  | (Returned cleanup, w1) => (Some cleanup, w1)
  | (c, w1) => (None, note_unhandled c w1)
  end.

Definition unmount_App (cleanup : option (prog unit)) (w : world) : world :=
  match cleanup with
  | Some c => run_task c w
  | None => w
  end.

(** *** Submitting the registration form *)

(** The request that [onSubmit] posts for the given field values. *)
Definition register_request
  (modelName companyName baseUrl apiKey : jsstring)
  (openAiCompatible : bool) : request :=
  mkRequest (API_BASE ++ lit "/register") POST json_headers
    (Some (JObject [(lit "modelName", JString modelName);
                    (lit "companyName", JString companyName);
                    (lit "baseUrl", or_null baseUrl);
                    (lit "apiKey", or_null apiKey);
                    (lit "openAiCompatible", JBool openAiCompatible)]))
    None.

(** The form is submitted with the field values of the current render,
    [App] has passed [reloadModels] as [onRegistered], and the request, if
    one was issued, settles to [o]. *)
Definition submit (o : fetch_outcome) (w : world) : world :=
  let f := form (state w) in
  let w1 :=
    run_task
      (RegisterPage_onSubmit reloadModels
         (RegisterPage.modelName f) (RegisterPage.companyName f)
         (RegisterPage.baseUrl f) (RegisterPage.apiKey f)
         (RegisterPage.openAiCompatible f)) w in
  settle (List.length (pending w)) o w1.

(** *** Failed dispatches *)

(** The ways a call of [apiGet] or [apiPost] rejects, with the value it
    rejects with: the [fetch] rejects; the status is outside 200-299 and
    the body text becomes the message of a new [Error]; reading the body
    rejects; the body of a 2xx response is not JSON. *)
Inductive api_fails : fetch_outcome -> thrown -> Prop :=
| transport_fails (e : thrown) : api_fails (Rejected e) e
| status_fails (st : N) (t : jsstring) :
    ok (mkResponse st (BodyText t)) = false ->
    api_fails (Responded (mkResponse st (BodyText t))) (ErrorObj t)
| read_fails (st : N) (e : thrown) :
    api_fails (Responded (mkResponse st (BodyFail e))) e
| syntax_fails (st : N) (raw : jsstring) :
    ok (mkResponse st (BodyText raw)) = true ->
    JSON_parse raw = None ->
    api_fails (Responded (mkResponse st (BodyText raw)))
      (ErrorObj (syntax_error_message raw)).

(** The outcomes on which the [try] block of [sendMessage] throws, with
    the value thrown.  On the model chat: [apiPost] rejects, or the body
    is the JSON [null], whose [response] cannot be read.  On the block
    explorer: the [fetch] rejects, the status is outside 200-299, or
    reading the body rejects. *)
Inductive fails : surface -> fetch_outcome -> thrown -> Prop :=
| chat_api_fails (o : fetch_outcome) (e : thrown) :
    api_fails o e -> fails ModelChat o e
| chat_null_fails (st : N) (raw : jsstring) :
    ok (mkResponse st (BodyText raw)) = true ->
    JSON_parse raw = Some JNull ->
    fails ModelChat (Responded (mkResponse st (BodyText raw)))
      (ErrorObj (type_error_message (lit "response")))
| explorer_transport_fails (e : thrown) :
    fails BlockExplorer (Rejected e) e
| explorer_status_fails (st : N) (t : jsstring) :
    ok (mkResponse st (BodyText t)) = false ->
    fails BlockExplorer (Responded (mkResponse st (BodyText t)))
      (ErrorObj t)
| explorer_read_fails (st : N) (e : thrown) :
    fails BlockExplorer (Responded (mkResponse st (BodyFail e))) e.

(** The user turn that [sendMessage] appends in world [w]. *)
Definition user_turn (input : jsstring) (w : world) : ChatMessage :=
  mkChatMessage (next_uuid w) user (Some (JString (trim input))) None.

(** The toast that [toast.push] appends in world [w]. *)
Definition pushed (t : ToastInit) (w : world) : Toast :=
  mkToast (toast_id_at (env w) (toast_next w)) (init_text t) (init_type t).

End Client.

(** The page when it has just loaded. *)
Definition initial_ui : ui :=
  mkUi App.init ChatPage.init BlockExplorerChat.init RegisterPage.init.

Definition initial_world (e : oracle) : world :=
  mkWorld initial_ui [] [] [] 0 [] [] e 0 0
    (ChatPage.input ChatPage.init, ChatPage.selectedModel ChatPage.init).

(** A sample environment for running the page on concrete inputs: the
    identifiers are numbered, and the engine words its errors like this. *)
Definition sample_oracle : oracle :=
  mkOracle (fun n => lit "uuid-" ++ String_ (Z.of_nat n))
           (fun n => 1000 + N.of_nat n).

Definition sample_syntax_message (text : jsstring) : jsstring :=
  lit "Unexpected token in JSON".

Definition sample_type_message (name : jsstring) : jsstring :=
  lit "Cannot read properties of null (reading '" ++ name ++ lit "')".

Definition sample_world : world := initial_world sample_oracle.

(** A string between double quotes, as it stands in a JSON text. *)
Definition quoted (s : jsstring) : jsstring := 34 :: s ++ [34].

(** The JSON text of an object with one string field. *)
Definition object1 (key value : jsstring) : jsstring :=
  lit "{" ++ quoted key ++ lit ":" ++ quoted value ++ lit "}".

(** The JSON text of the answer that [/chat] is expected to give. *)
Definition chat_body (response via : jsstring) : jsstring :=
  lit "{" ++ quoted (lit "response") ++ lit ":" ++ quoted response ++ lit ","
  ++ quoted (lit "response_generated_via") ++ lit ":" ++ quoted via
  ++ lit "}".

(** The sample page with the registration form filled in. *)
Definition sample_form_world : world :=
  set_state
    (in_form (fun _ => RegisterPage.mk (lit "gpt-4o-mini") (lit "OpenAI")
                         [] (lit "sk-1") true false))
    sample_world.

(** ** The response of [/chat] as the specification words it

    "Expects a JSON response { response: string, response_generated_via:
    string }": the body parses to an object whose two fields are strings.
    A body that is anything else is a malformed body in these words; the
    code has no such test. *)
Definition spec_expected_chat_body (raw : jsstring) : bool :=
  match JSON_parse raw with
  | Some (JObject ms) =>
      match lookup_last (lit "response") ms,
            lookup_last (lit "response_generated_via") ms with
      | Some (JString _), Some (JString _) => true
      | _, _ => false
      end
  | _ => false
  end.

(** The failures that the specification lists for a model-chat dispatch: a
    network error, a status outside 2xx, a malformed body. *)
Definition spec_failed (o : fetch_outcome) : bool :=
  match o with
  | Rejected _ => true
  | Responded res =>
      negb (ok res)
      || match body_read res with
         | BodyText raw => negb (spec_expected_chat_body raw)
         | BodyFail _ => true
         end
  end.

(** ** Notions for the further properties *)


(** A code unit that stands for itself inside a JSON string literal: not a
    double quote, not a backslash, not a control character. *)
Definition plain_char (c : N) : bool :=
  negb (c =? 34) && negb (c =? 92) && (32 <=? c).

Definition plain (s : jsstring) : bool := forallb plain_char s.

(** The ids of the messages of both conversations. *)
Definition conversation_ids (w : world) : list jsstring :=
  map id (ChatPage.messages (chat (state w))
          ++ BlockExplorerChat.messages (explorer (state w))).

(** Every message id is a value that [crypto.randomUUID()] has returned. *)
Definition ids_drawn (w : world) : Prop :=
  forall i, In i (conversation_ids w) ->
            exists n, (n < uuid_next w)%nat /\ i = uuid_at (env w) n.

(** The [keydown] listener of [ChatPage] closed over the [input] that is
    in the state now. *)
Definition listener_fresh (w : world) : Prop :=
  fst (onEnter w) = ChatPage.input (chat (state w)).

(** [reloadModels] is called and its [fetch] settles to [o]. *)
Definition reload (syntax_error_message : jsstring -> jsstring)
  (o : fetch_outcome) (w : world) : world :=
  settle (List.length (pending w)) o
    (run_task (reloadModels syntax_error_message) w).

(** [App] is mounted and the [fetch] of its effect settles to [o]. *)
Definition mount_and_settle (syntax_error_message : jsstring -> jsstring)
  (o : fetch_outcome) (w : world) : world :=
  settle (List.length (pending w)) o
    (snd (mount_App syntax_error_message w)).

(** What can happen on the model chat: the user types, picks a model,
    presses Send or Cmd/Ctrl + Enter, or the [i]-th pending [fetch] settles;
    after each of them the component renders again. *)
Inductive ChatEvent : Type :=
| TypeInput (v : jsstring)
| SelectModel (v : jsstring)
| ClickSend
| CtrlEnter
| Settled (i : nat) (o : fetch_outcome).

Definition step (syntax_error_message type_error_message : jsstring -> jsstring)
  (w : world) (ev : ChatEvent) : world :=
  match ev with
  | TypeInput v => type_input v w
  | SelectModel v => select_model v w
  | ClickSend => click_send syntax_error_message type_error_message w
  | CtrlEnter => ctrl_enter syntax_error_message type_error_message w
  | Settled i o => rerender_ChatPage (state w) (settle i o w)
  end.

Definition play (syntax_error_message type_error_message : jsstring -> jsstring)
  (evs : list ChatEvent) (w : world) : world :=
  fold_left (step syntax_error_message type_error_message) evs w.

(** A waiting body that, when it resumes, touches neither the input of the
    model chat nor its listener and leaves nothing new pending. *)
Definition quiet (k : fetch_outcome -> prog unit) : Prop :=
  forall o w,
    onEnter (run_task (k o) w) = onEnter w
    /\ ChatPage.input (chat (state (run_task (k o) w)))
       = ChatPage.input (chat (state w))
    /\ pending (run_task (k o) w) = pending w.

(** * Properties *)

(** ** Strings and numbers *)

Lemma trimStart_all_space (s : jsstring) :
  forallb is_js_space s = true -> trimStart s = [].
Proof.
  induction s as [|c r IH]; simpl; [reflexivity|].
  intros H. apply andb_true_iff in H as [Hc Hr]. rewrite Hc. auto.
Qed.

Lemma trimStart_keeps (s : jsstring) :
  forallb is_js_space s = false ->
  exists c r, trimStart s = c :: r /\ is_js_space c = false.
Proof.
  induction s as [|c r IH]; simpl; [discriminate|].
  destruct (is_js_space c) eqn:Hc; simpl; intros H.
  - auto.
  - exists c, r. auto.
Qed.

(** The trimmed text is empty exactly when the string is blank. *)
Lemma is_empty_trim (s : jsstring) : is_empty (trim s) = whitespace_only s.
Proof.
  unfold trim, trimEnd, whitespace_only.
  destruct (forallb is_js_space s) eqn:Hs.
  - rewrite (trimStart_all_space s Hs). reflexivity.
  - destruct (trimStart_keeps s Hs) as (c & r & -> & Hc).
    assert (Hrev : forallb is_js_space (rev (c :: r)) = false).
    { simpl. rewrite forallb_app. simpl. rewrite Hc.
      now rewrite andb_false_r. }
    destruct (trimStart_keeps _ Hrev) as (c' & r' & -> & _).
    simpl. now destruct (rev r').
Qed.

Lemma trimStart_no_space (s : jsstring) :
  (forall c, In c s -> is_js_space c = false) -> trimStart s = s.
Proof.
  destruct s as [|c r]; simpl; [reflexivity|].
  intros H. now rewrite (H c (or_introl eq_refl)).
Qed.

Lemma trim_no_space (s : jsstring) :
  (forall c, In c s -> is_js_space c = false) -> trim s = s.
Proof.
  intros H. unfold trim, trimEnd.
  rewrite (trimStart_no_space s H), trimStart_no_space.
  - apply rev_involutive.
  - intros c Hc. apply H. now apply in_rev.
Qed.

(** The characters that [String_] writes: digits and the minus sign. *)
Definition numeric_char (c : N) : Prop := is_digit c = true \/ c = 45.

Lemma is_digit_range (c : N) : is_digit c = true <-> 48 <= c <= 57.
Proof.
  unfold is_digit. rewrite andb_true_iff, !N.leb_le. reflexivity.
Qed.

Lemma numeric_char_no_space (c : N) :
  numeric_char c -> is_js_space c = false.
Proof.
  intros [H | ->]; [|reflexivity].
  apply is_digit_range in H.
  assert (E : c = 48 \/ c = 49 \/ c = 50 \/ c = 51 \/ c = 52 \/ c = 53 \/
              c = 54 \/ c = 55 \/ c = 56 \/ c = 57) by lia.
  repeat (destruct E as [-> | E]; [reflexivity|]). now subst.
Qed.

Lemma digits_value_snoc (ds : jsstring) (d : N) :
  digits_value (ds ++ [d]) = (10 * digits_value ds + Z.of_N (d - 48))%Z.
Proof. unfold digits_value. now rewrite fold_left_app. Qed.

Lemma digits_of_S (f : nat) (n : N) (acc : jsstring) :
  digits_of (S f) n acc =
  if n / 10 =? 0 then (48 + n mod 10) :: acc
  else digits_of f (n / 10) ((48 + n mod 10) :: acc).
Proof. reflexivity. Qed.

(** [digits_of] writes the decimal digits of [n] in front of [acc]. *)
Lemma digits_of_spec (fuel : nat) :
  forall (n : N) (acc : jsstring),
    fuel <> O -> n < 2 ^ N.of_nat fuel ->
    exists ds, digits_of fuel n acc = ds ++ acc /\ ds <> [] /\
               Forall (fun c => is_digit c = true) ds /\
               digits_value ds = Z.of_N n.
Proof.
  induction fuel as [|f IH]; intros n acc Hf Hn; [congruence|].
  rewrite digits_of_S.
  rewrite Nnat.Nat2N.inj_succ, N.pow_succ_r' in Hn.
  assert (Hm : n mod 10 < 10) by (apply N.mod_upper_bound; discriminate).
  assert (Hdm : n = 10 * (n / 10) + n mod 10)
    by (apply N.div_mod; discriminate).
  specialize (IH (n / 10) ((48 + n mod 10) :: acc)).
  set (q := n / 10) in *. set (m := n mod 10) in *.
  set (P := 2 ^ N.of_nat f) in *.
  assert (HP : f = O -> P = 1) by (intros ->; reflexivity).
  clearbody q m P.
  assert (Hd : is_digit (48 + m) = true) by (apply is_digit_range; lia).
  destruct (q =? 0) eqn:Hq.
  - apply N.eqb_eq in Hq. exists [48 + m]. repeat split.
    + discriminate.
    + now constructor.
    + unfold digits_value. cbn [fold_left]. lia.
  - apply N.eqb_neq in Hq.
    destruct IH as (ds & E & Hne & Hall & Hv).
    + intros Hz. specialize (HP Hz). lia.
    + lia.
    + exists (ds ++ [48 + m]). repeat split.
      * rewrite <- app_assoc. exact E.
      * now destruct ds.
      * apply Forall_app. split; [assumption | now constructor].
      * rewrite digits_value_snoc, Hv. lia.
Qed.

Lemma span_digits_all (ds : jsstring) :
  Forall (fun c => is_digit c = true) ds -> span_digits ds = (ds, []).
Proof.
  induction 1 as [|c r Hc _ IH]; simpl; [reflexivity|].
  now rewrite Hc, IH.
Qed.

(** The shape of [String_ z]: a minus sign when [z] is negative, then the
    digits of its absolute value. *)
Lemma String_shape (z : Z) :
  exists ds, String_ z = (if (z <? 0)%Z then [45] else []) ++ ds /\
             ds <> [] /\ Forall (fun c => is_digit c = true) ds /\
             digits_value ds = Z.abs z.
Proof.
  unfold String_.
  destruct (digits_of_spec (S (N.to_nat (N.log2 (Z.abs_N z))))
              (Z.abs_N z) []) as (ds & E & Hne & Hall & Hv).
  - discriminate.
  - rewrite Nnat.Nat2N.inj_succ, Nnat.N2Nat.id.
    destruct (N.eq_dec (Z.abs_N z) 0) as [-> | Hz]; [reflexivity|].
    apply N.log2_spec. lia.
  - exists ds. rewrite E, app_nil_r. repeat split; try assumption.
    + now destruct (z <? 0)%Z.
    + rewrite Hv. apply N2Z.inj_abs_N.
Qed.

Lemma String_chars (z : Z) : Forall numeric_char (String_ z).
Proof.
  destruct (String_shape z) as (ds & -> & _ & Hall & _).
  apply Forall_app. split.
  - destruct (z <? 0)%Z; [|constructor].
    constructor; [now right | constructor].
  - eapply Forall_impl; [|exact Hall]. intros c Hc. now left.
Qed.

(** [Number(String(z)) = z] *)
Lemma Number_String (z : Z) : Number (String_ z) = NumInt z.
Proof.
  unfold Number. rewrite trim_no_space.
  2:{ intros c Hc. apply numeric_char_no_space.
      pose proof (String_chars z) as H.
      rewrite Forall_forall in H. now apply H. }
  destruct (String_shape z) as (ds & -> & Hne & Hall & Hv).
  destruct (z <? 0)%Z eqn:Hz.
  - change ([45] ++ ds) with (45 :: ds). cbv beta iota zeta.
    rewrite N.eqb_refl, (span_digits_all ds Hall).
    destruct ds as [|d r]; [congruence|].
    f_equal. apply Z.ltb_lt in Hz. lia.
  - change ([] ++ ds) with ds.
    destruct ds as [|d r]; [congruence|].
    assert (Hd : 48 <= d <= 57).
    { apply is_digit_range. now inversion Hall. }
    cbv beta iota zeta.
    replace (d =? 45) with false by (symmetry; apply N.eqb_neq; lia).
    replace (d =? 43) with false by (symmetry; apply N.eqb_neq; lia).
    rewrite (span_digits_all _ Hall). f_equal.
    apply Z.ltb_ge in Hz. lia.
Qed.

(** No [String_ z] is the string ["auto"]. *)
Lemma String_not_auto (z : Z) : jsstring_eqb (String_ z) (lit "auto") = false.
Proof.
  unfold jsstring_eqb. destruct (list_eq_dec _ _ _) as [E|]; [|reflexivity].
  pose proof (String_chars z) as H. rewrite E in H.
  inversion H as [|c r [Hc | Hc] _]; subst; discriminate.
Qed.

(** ** The event loop *)

Lemma nth_error_snoc {X : Type} (l : list X) (x : X) :
  nth_error (l ++ [x]) (List.length l) = Some x.
Proof. induction l as [|y l IH]; simpl; auto. Qed.

Lemma remove_nth_snoc {X : Type} (l : list X) (x : X) :
  remove_nth (List.length l) (l ++ [x]) = l.
Proof. induction l as [|y l IH]; simpl; [reflexivity | now rewrite IH]. Qed.

(** When the [fetch] that was issued last settles, the body that awaited
    it resumes, and what was pending before that [fetch] still is. *)
Lemma settle_issue (r : request) (k : fetch_outcome -> prog unit)
  (o : fetch_outcome) (w : world) (n : nat) :
  n = List.length (pending w) ->
  settle n o (issue r k w) =
  run_task (k (network r o (issue r k w)))
    (set_pending (pending w) (issue r k w)).
Proof.
  intros ->. unfold settle.
  change (pending (issue r k w)) with (pending w ++ [(r, k)]).
  now rewrite nth_error_snoc, remove_nth_snoc.
Qed.

Lemma network_no_signal (r : request) (o : fetch_outcome) (w : world) :
  signal r = None -> network r o w = o.
Proof. unfold network. now intros ->. Qed.

Arguments lit : simpl never.
Arguments trim : simpl never.
Arguments Number : simpl never.
Arguments JSON_parse : simpl never.
Arguments resolve_md : simpl never.
Arguments parseApiError : simpl never.
Arguments ok : simpl never.

Section Properties.

(** The messages of the engine's own errors, as in [Client]. *)
Variable sem : jsstring -> jsstring.
Variable tem : jsstring -> jsstring.

(** Run the synchronous part of a dispatch whose query is not blank, let
    its [fetch] settle and run the rest of the body. *)
Ltac dispatch_steps Hin :=
  unfold dispatch, run_task, sendMessage, ChatPage_sendMessage,
    BlockExplorerChat_sendMessage;
  rewrite Hin; cbn -[settle issue];
  rewrite settle_issue by reflexivity;
  rewrite network_no_signal by reflexivity;
  cbn.


(** C1.  When the block explorer answers with a 2xx status and raw body
    [raw], one AI message is appended after the user turn and its text
    [md] is resolved in this order: the string itself when [raw] parses
    to a JSON string; the [response] field when [raw] parses to an
    object whose [response] is a string; [raw] verbatim when [raw] is not
    JSON. *)
Theorem explorer_text_precedence
  (input sel raw : jsstring) (st : N) (w : world) :
  whitespace_only input = false ->
  ok (mkResponse st (BodyText raw)) = true ->
  exists md,
    messages_of BlockExplorer
      (state (dispatch sem tem BlockExplorer input sel
                (Responded (mkResponse st (BodyText raw))) w))
    = messages_of BlockExplorer (state w)
      ++ [user_turn input w;
          mkChatMessage (uuid_at (env w) (S (uuid_next w))) ai
            (Some (JString md)) None]
    /\ (forall s, JSON_parse raw = Some (JString s) -> md = s)
    /\ (forall ms s, JSON_parse raw = Some (JObject ms) ->
                     lookup_last (lit "response") ms = Some (JString s) ->
                     md = s)
    /\ (JSON_parse raw = None -> md = raw).
Proof.
  intros Hin Hok. rewrite <- is_empty_trim in Hin.
  dispatch_steps Hin. rewrite Hok. cbn.
  exists (resolve_md raw). split.
  - now rewrite <- app_assoc.
  - unfold resolve_md. repeat split.
    + now intros s ->.
    + now intros ms s -> ->.
    + now intros ->.
Qed.

(** What a failed dispatch leaves behind: the user turn and nothing
    after it, one error toast with the text of [parseApiError], the flag
    cleared, nothing pending that was not pending before. *)
Lemma dispatch_fails
  (sf : surface) (input sel : jsstring) (o : fetch_outcome) (e : thrown)
  (w : world) :
  is_empty (trim input) = false ->
  fails sem tem sf o e ->
  let w2 := dispatch sem tem sf input sel o w in
  messages_of sf (state w2) = messages_of sf (state w) ++ [user_turn input w]
  /\ toasts w2
     = toasts w ++ [pushed (mkToastInit (parseApiError e) (Some error)) w]
  /\ loading_of sf (state w2) = false
  /\ pending w2 = pending w.
Proof.
  intros Hin Hf.
  destruct Hf as [o e Ha | st raw Hok Hp | e | st t Hok | st e].
  - destruct Ha as [e | st t Hok | st e | st raw Hok Hp];
      dispatch_steps Hin; try rewrite Hok; cbn.
    + repeat split.
    + repeat split.
    + destruct (ok _); cbn; repeat split.
    + rewrite Hp. cbn. repeat split.
  - dispatch_steps Hin. rewrite Hok. cbn. rewrite Hp. cbn. repeat split.
  - dispatch_steps Hin. repeat split.
  - dispatch_steps Hin. rewrite Hok. cbn. repeat split.
  - dispatch_steps Hin. destruct (ok _); cbn; repeat split.
Qed.

(** Every outcome either makes the [try] block throw or is a 2xx answer
    whose body was read: on the block explorer any such answer, on the model
    chat one whose body is JSON other than [null]. *)
Lemma fails_or_answers (sf : surface) (o : fetch_outcome) :
  (exists e, fails sem tem sf o e)
  \/ (exists st raw,
        o = Responded (mkResponse st (BodyText raw))
        /\ ok (mkResponse st (BodyText raw)) = true
        /\ (sf = BlockExplorer
            \/ exists v, JSON_parse raw = Some v /\ v <> JNull)).
Proof.
  destruct o as [e | [st [raw | e]]].
  - left. exists e. destruct sf; repeat constructor.
  - destruct (ok (mkResponse st (BodyText raw))) eqn:Hok.
    + destruct sf.
      * destruct (JSON_parse raw) as [v|] eqn:Hp.
        -- destruct v;
             try (right; exists st, raw;
                  split; [reflexivity |];
                  split; [exact Hok |];
                  right; eexists; split; [exact Hp | discriminate]).
           left. eexists. now apply chat_null_fails.
        -- left. eexists. apply chat_api_fails. now apply syntax_fails.
      * right. exists st, raw.
        split; [reflexivity |]. split; [exact Hok | now left].
    + left. exists (ErrorObj raw).
      destruct sf; [apply chat_api_fails|]; now constructor.
  - left. exists e. destruct sf; repeat constructor.
Qed.

(** On the model chat, a 2xx answer whose body is JSON other than [null]
    is never a failure, whatever its shape: an AI message is appended with
    whatever the two fields hold, and no toast is pushed. *)
Lemma answered_chat_appends_ai
  (input sel raw : jsstring) (st : N) (v : json) (w : world) :
  is_empty (trim input) = false ->
  ok (mkResponse st (BodyText raw)) = true ->
  JSON_parse raw = Some v -> v <> JNull ->
  let w2 := dispatch sem tem ModelChat input sel
              (Responded (mkResponse st (BodyText raw))) w in
  (exists r g,
      messages_of ModelChat (state w2)
      = messages_of ModelChat (state w)
        ++ [user_turn input w;
            mkChatMessage (uuid_at (env w) (S (uuid_next w))) ai r g])
  /\ toasts w2 = toasts w.
Proof.
  intros Hin Hok Hp Hv. dispatch_steps Hin. rewrite Hok. cbn.
  rewrite Hp. destruct v; try congruence; cbn;
    (split; [do 2 eexists; rewrite <- app_assoc; reflexivity | reflexivity]).
Qed.

(** C10.  A dispatch that fails does not take the user turn back: on
    either surface the conversation after the failure is the conversation
    before the send followed by that one user message. *)
Theorem failed_dispatch_keeps_user_turn
  (sf : surface) (input sel : jsstring) (o : fetch_outcome) (e : thrown)
  (w : world) :
  whitespace_only input = false ->
  fails sem tem sf o e ->
  messages_of sf (state (dispatch sem tem sf input sel o w))
  = messages_of sf (state w)
    ++ [mkChatMessage (next_uuid w) user (Some (JString (trim input))) None].
Proof.
  intros Hin Hf. rewrite <- is_empty_trim in Hin.
  exact (proj1 (dispatch_fails sf input sel o e w Hin Hf)).
Qed.

(** C6.  On either surface, however the [fetch] of a dispatch settles, the
    loading flag, which is set while the request is in flight, is false
    when the dispatch has ended; clearing it is the last thing the dispatch
    does, and the body of the handler has then run to its end: it is not
    left waiting. *)
Theorem dispatch_clears_loading
  (sf : surface) (input sel : jsstring) (o : fetch_outcome) (w : world) :
  whitespace_only input = false ->
  loading_of sf (state (run_task (sendMessage sem tem sf input sel) w))
  = true
  /\ loading_of sf (state (dispatch sem tem sf input sel o w)) = false
  /\ pending (dispatch sem tem sf input sel o w) = pending w
  /\ exists w',
       dispatch sem tem sf input sel o w = set_state (clear_loading sf) w'.
Proof.
  intros Hin. rewrite <- is_empty_trim in Hin. split.
  - destruct sf; unfold run_task, sendMessage, ChatPage_sendMessage,
      BlockExplorerChat_sendMessage; rewrite Hin; reflexivity.
  - destruct sf;
      unfold dispatch, run_task, sendMessage, ChatPage_sendMessage,
        BlockExplorerChat_sendMessage;
      rewrite Hin; cbn -[settle issue];
      rewrite settle_issue by reflexivity;
      rewrite network_no_signal by reflexivity;
      unfold run_task; cbn -[set_state];
      destruct o as [e | [st [raw | e]]]; cbn -[set_state];
      try (repeat split; eexists; reflexivity);
      destruct (ok _); cbn -[set_state];
      try (repeat split; eexists; reflexivity).
    destruct (JSON_parse raw) as [[]|]; cbn -[set_state];
      repeat split; eexists; reflexivity.
Qed.

(** C5, as the code has it.  When the [try] block of a dispatch throws
    (the [fetch] rejects, the status is outside 2xx and the body text is
    the error message, reading the body rejects, or, on the model chat,
    the 2xx body is not JSON or is the JSON [null]), no AI message is
    appended and exactly one toast of type [error] is pushed; its text is
    the message of the error, or ["Request failed"] when that message is
    empty or the thrown value cannot be turned into a string. *)
Theorem failed_dispatch_raises_one_error
  (sf : surface) (input sel : jsstring) (o : fetch_outcome) (e : thrown)
  (w : world) :
  whitespace_only input = false ->
  fails sem tem sf o e ->
  let w2 := dispatch sem tem sf input sel o w in
  messages_of sf (state w2) = messages_of sf (state w) ++ [user_turn input w]
  /\ toasts w2
     = toasts w
       ++ [mkToast (toast_id_at (env w) (toast_next w))
             match e with
             | ErrorObj m => if is_empty m then lit "Request failed" else m
             | NonError (Some s) => s
             | NonError None => lit "Request failed"
             end
             (Some error)].
Proof.
  intros Hin Hf. rewrite <- is_empty_trim in Hin.
  destruct (dispatch_fails sf input sel o e w Hin Hf) as (Hm & Ht & _).
  split; [exact Hm|]. cbv zeta. rewrite Ht. now destruct e as [m | [s|]].
Qed.

(** The request of a model-chat dispatch: [modelId] is [null] when the
    [selectedModel] that [sendMessage] closed over is ["auto"], and the
    number that [Number] reads from it otherwise. *)
Lemma chat_request_body (input sel : jsstring) (w : world) :
  is_empty (trim input) = false ->
  let r :=
    mkRequest (API_BASE ++ lit "/chat") POST json_headers
      (Some (JObject
               [(lit "query", JString (trim input));
                (lit "modelId",
                 if jsstring_eqb sel (lit "auto") then JNull
                 else JNumber (Number sel))]))
      None in
  let w1 := run_task (ChatPage_sendMessage sem tem input sel) w in
  exists k u,
    net w1 = net w ++ [(r, u)] /\ pending w1 = pending w ++ [(r, k)].
Proof.
  intros Hin. unfold run_task, ChatPage_sendMessage. rewrite Hin. cbn.
  do 2 eexists. split; reflexivity.
Qed.

Lemma net_rerender (before : ui) (w : world) :
  net (rerender_ChatPage before w) = net w.
Proof.
  unfold rerender_ChatPage.
  now destruct (jsstring_eqb (ChatPage.input (chat before)) _).
Qed.

(** With the selection the Send button sees: whichever option of the
    select is chosen, the request carries [null] for ["auto"] and the id of
    the model for the option of a model. *)
Lemma click_send_modelId (w : world) (llms : list Llm.t) :
  ChatPage.loading (chat (state w)) = false ->
  whitespace_only (ChatPage.input (chat (state w))) = false ->
  (forall m, In m llms -> isSafeInteger (Llm.id m) = true) ->
  let sel := ChatPage.selectedModel (chat (state w)) in
  let sent :=
    match last (net (click_send sem tem w))
            (mkRequest [] GET [] None None, state w) with
    | (r, _) =>
        match body r with
        | Some (JObject ms) => lookup_last (lit "modelId") ms
        | _ => None
        end
    end in
  In sel (option_values llms) ->
  (sel = lit "auto" /\ sent = Some JNull)
  \/ (exists m, In m llms /\ sel = String_ (Llm.id m)
                /\ sent = Some (JNumber (NumInt (Llm.id m)))).
Proof.
  intros Hl Hin _ sel sent Hsel. rewrite <- is_empty_trim in Hin.
  destruct (chat_request_body (ChatPage.input (chat (state w))) sel w Hin)
    as (k & u & Hnet & _). cbv zeta in Hnet.
  assert (E : net (click_send sem tem w)
              = net (run_task (ChatPage_sendMessage sem tem
                                 (ChatPage.input (chat (state w))) sel) w)).
  { unfold click_send. rewrite Hl, Hin. cbn [orb].
    apply net_rerender. }
  subst sent. rewrite E, Hnet, last_last. cbn [fst body].
  destruct Hsel as [Hs | Hs].
  - left. rewrite <- Hs. split; reflexivity.
  - right. apply in_map_iff in Hs as (m & Hs & Hm).
    exists m. rewrite <- Hs, String_not_auto, Number_String.
    repeat split. assumption.
Qed.

(** A 2xx answer of [/chat] whose body is an object: one AI message is
    appended, with the [response] and [response_generated_via] of the
    object as [text] and [via], and no toast is pushed. *)
Lemma chat_success_appends_ai
  (input sel raw : jsstring) (st : N) (ms : list (jsstring * json))
  (w : world) :
  is_empty (trim input) = false ->
  ok (mkResponse st (BodyText raw)) = true ->
  JSON_parse raw = Some (JObject ms) ->
  let w2 := dispatch sem tem ModelChat input sel
              (Responded (mkResponse st (BodyText raw))) w in
  messages_of ModelChat (state w2)
  = messages_of ModelChat (state w)
    ++ [user_turn input w;
        mkChatMessage (uuid_at (env w) (S (uuid_next w))) ai
          (lookup_last (lit "response") ms)
          (lookup_last (lit "response_generated_via") ms)]
  /\ toasts w2 = toasts w.
Proof.
  intros Hin Hok Hp. dispatch_steps Hin. rewrite Hok. cbn.
  rewrite Hp. cbn. now rewrite <- app_assoc.
Qed.

(** C4.  Type a query, pick the model with id 3 in the select, press
    Cmd/Ctrl + Enter: the selection is that model, and the one request
    that goes out carries [modelId = null].  The [keydown] listener was
    registered when [input] last changed and calls the [sendMessage] of
    that render, in which [selectedModel] was still ["auto"]. *)
Theorem ctrl_enter_sends_stale_selection (e : oracle) :
  let w := ctrl_enter sem tem
             (select_model (String_ 3)
                (type_input (lit "hi") (initial_world e))) in
  ChatPage.selectedModel (chat (state w)) = String_ 3
  /\ map (fun x => body (fst x)) (net w)
     = [Some (JObject [(lit "query", JString (lit "hi"));
                       (lit "modelId", JNull)])].
Proof. split; reflexivity. Qed.

(** The Send button, pressed in the same situation, sends the id. *)
Lemma click_send_sends_selection (e : oracle) :
  let w := click_send sem tem
             (select_model (String_ 3)
                (type_input (lit "hi") (initial_world e))) in
  map (fun x => body (fst x)) (net w)
  = [Some (JObject [(lit "query", JString (lit "hi"));
                    (lit "modelId", JNumber (NumInt 3))])].
Proof. reflexivity. Qed.

(** C7.  A submission whose model name or provider name is blank or only
    white space is rejected on the spot: no [fetch] is issued, nothing is
    left pending, no component state changes, and exactly one toast is
    pushed, the validation message. *)
Theorem blank_registration_rejected_locally
  (onRegistered : prog unit) (modelName companyName baseUrl apiKey : jsstring)
  (openAiCompatible : bool) (w : world) :
  whitespace_only modelName = true \/ whitespace_only companyName = true ->
  let w1 :=
    run_task (RegisterPage_onSubmit sem onRegistered modelName companyName
                baseUrl apiKey openAiCompatible) w in
  net w1 = net w
  /\ pending w1 = pending w
  /\ state w1 = state w
  /\ toasts w1
     = toasts w
       ++ [mkToast (toast_id_at (env w) (toast_next w))
             (lit "Model name and company are required") (Some error)].
Proof.
  intros H. unfold run_task, RegisterPage_onSubmit.
  rewrite !is_empty_trim.
  assert (E : whitespace_only modelName || whitespace_only companyName
              = true).
  { destruct H as [-> | ->]; [reflexivity | apply orb_true_r]. }
  rewrite E. cbn. repeat split.
Qed.

(** C8.  A submission with both names filled in posts one request.  When
    the answer is a 2xx response with a JSON body, the five fields are back
    at their defaults, the toast ["Model registered"] is pushed and the
    model list is fetched again.  When [apiPost] rejects, an error toast
    is pushed, the five fields keep their values and no second request
    goes out. *)
Theorem registration_outcome (o : fetch_outcome) (w : world) :
  let f := form (state w) in
  whitespace_only (RegisterPage.modelName f) = false ->
  whitespace_only (RegisterPage.companyName f) = false ->
  let w2 := submit sem o w in
  let posted :=
    register_request (RegisterPage.modelName f) (RegisterPage.companyName f)
      (RegisterPage.baseUrl f) (RegisterPage.apiKey f)
      (RegisterPage.openAiCompatible f) in
  (forall st raw v,
      o = Responded (mkResponse st (BodyText raw)) ->
      ok (mkResponse st (BodyText raw)) = true ->
      JSON_parse raw = Some v ->
      RegisterPage.fields (form (state w2))
      = RegisterPage.fields RegisterPage.init
      /\ toasts w2
         = toasts w ++ [pushed (mkToastInit (lit "Model registered") None) w]
      /\ exists u1 u2,
           net w2
           = net w ++ [(posted, u1);
                       (mkRequest (API_BASE ++ lit "/") GET [] None None,
                        u2)])
  /\ (forall e,
        api_fails sem o e ->
        RegisterPage.fields (form (state w2))
        = RegisterPage.fields (form (state w))
        /\ toasts w2
           = toasts w
             ++ [pushed (mkToastInit (parseApiError e) (Some error)) w]
        /\ exists u1, net w2 = net w ++ [(posted, u1)]).
Proof.
  intros f Hm Hc w2 posted. subst w2 posted.
  rewrite <- is_empty_trim in Hm, Hc.
  unfold submit, run_task, RegisterPage_onSubmit. fold f.
  rewrite Hm, Hc. cbn -[settle issue].
  rewrite settle_issue by reflexivity.
  rewrite network_no_signal by reflexivity.
  split.
  - intros st raw v -> Hok Hp. cbn. rewrite Hok. cbn. rewrite Hp. cbn.
    repeat split. do 2 eexists. rewrite <- app_assoc. reflexivity.
  - intros e Ha.
    destruct Ha as [e | st t Hok | st e | st raw Hok Hp]; cbn;
      try rewrite Hok; cbn.
    + repeat split. eexists. reflexivity.
    + repeat split. eexists. reflexivity.
    + destruct (ok _); cbn; repeat split; eexists; reflexivity.
    + rewrite Hp. cbn. repeat split. eexists. reflexivity.
Qed.

(** C9.  [App] is mounted and torn down before the model list arrives.
    The cleanup aborts the controller, but the one [fetch] that went out
    carries no signal, so it settles as the server answers and the rest of
    the promise chain runs: a list that arrives is handed to [setLlms], and
    a failure pushes its toast into the store, which lives outside the
    component. *)
Theorem mount_fetch_carries_no_signal (e : oracle) (o : fetch_outcome) :
  let w1 := snd (mount_App sem (initial_world e)) in
  let w2 := unmount_App (fst (mount_App sem (initial_world e))) w1 in
  aborted w2 = [0%nat]
  /\ map (fun x => signal (fst x)) (net w2) = [None]
  /\ List.length (pending w2) = 1%nat
  /\ (forall st raw v,
        o = Responded (mkResponse st (BodyText raw)) ->
        ok (mkResponse st (BodyText raw)) = true ->
        JSON_parse raw = Some v ->
        App.llms (app (state (settle 0 o w2))) = Some v)
  /\ (forall err,
        api_fails sem o err ->
        toasts (settle 0 o w2)
        = [mkToast (toast_id_at e 0) (parseApiError err) (Some error)]).
Proof.
  cbn. repeat split.
  - intros st raw v -> Hok Hp. unfold settle. cbn. rewrite Hok. cbn.
    rewrite Hp. reflexivity.
  - intros err Ha. unfold settle. cbn.
    destruct Ha as [err | st t Hok | st err | st raw Hok Hp]; cbn;
      try rewrite Hok; cbn.
    + reflexivity.
    + reflexivity.
    + destruct (ok _); reflexivity.
    + rewrite Hp. reflexivity.
Qed.

(** Had the effect passed [c.signal] on, the same teardown would have
    made the [fetch] reject with an [AbortError]. *)
Lemma network_aborts_signalled (r : request) (c : nat) (o : fetch_outcome)
  (w : world) :
  signal r = Some c -> In c (aborted w) -> network r o w = Rejected AbortError.
Proof.
  intros Hs Hc. unfold network. rewrite Hs.
  replace (existsb (Nat.eqb c) (aborted w)) with true; [reflexivity|].
  symmetry. apply existsb_exists. exists c. split; [assumption|].
  apply Nat.eqb_refl.
Qed.

End Properties.

(** ** Expiry of toasts *)

(** C2.  Toast 1 is pushed at time 0 and toast 2 at time 1000.  Toast 1 is
    not removed 3500 ms after its own push: it is still in the list at 3500
    and at 4499, and leaves it at 4500, which is 3500 ms after the push of
    toast 2. *)
Theorem second_push_postpones_expiry (a b : ToastInit) :
  let p := ToastContainer.push 2 b
             (ToastContainer.wait_until 1000
                (ToastContainer.push 1 a ToastContainer.initial)) in
  ToastContainer.present 1 (ToastContainer.wait_until 3500 p) = true
  /\ ToastContainer.present 1 (ToastContainer.wait_until 4499 p) = true
  /\ ToastContainer.present 1 (ToastContainer.wait_until 4500 p) = false.
Proof. repeat split. Qed.

(** A removal postpones the others in the same way: when the timer of
    toast 1 fires at 4500 the effect runs again, and toast 2, pushed at
    1000, stays until 8000. *)
Lemma removal_postpones_expiry (a b : ToastInit) :
  let p := ToastContainer.push 2 b
             (ToastContainer.wait_until 1000
                (ToastContainer.push 1 a ToastContainer.initial)) in
  ToastContainer.present 2 (ToastContainer.wait_until 7999 p) = true
  /\ ToastContainer.present 2 (ToastContainer.wait_until 8000 p) = false.
Proof. repeat split. Qed.

(** Every [push] sets the timers of all the toasts in the list anew, the
    older ones included: each is due 3500 ms from now. *)
Lemma push_resets_all_timers (id : N) (t : ToastInit)
  (p : ToastContainer.page) :
  map ToastContainer.target (ToastContainer.timers (ToastContainer.push id t p))
  = map toast_id (ToastContainer.toasts p) ++ [id]
  /\ Forall (fun x => ToastContainer.due x = ToastContainer.now p + 3500)
       (ToastContainer.timers (ToastContainer.push id t p)).
Proof.
  unfold ToastContainer.push, ToastContainer.effect, ToastStore.push.
  cbn [ToastContainer.timers ToastContainer.toasts ToastContainer.now].
  split.
  - rewrite map_map, map_app. reflexivity.
  - apply Forall_forall. intros x Hx.
    apply in_map_iff in Hx as (y & <- & _). reflexivity.
Qed.

(** A toast that is alone in the list from its push on does leave it 3500 ms
    after the push. *)
Lemma lone_toast_expires (id T : N) (t : ToastInit) :
  let p := ToastContainer.push id t
             (ToastContainer.at_time T ToastContainer.initial) in
  ToastContainer.present id (ToastContainer.wait_until (T + 3499) p) = true
  /\ ToastContainer.present id (ToastContainer.wait_until (T + 3500) p)
     = false.
Proof.
  assert (E0 : ToastContainer.at_time T ToastContainer.initial
               = ToastContainer.mkPage T [] []).
  { unfold ToastContainer.at_time, ToastContainer.initial. cbn.
    now rewrite N.max_r by lia. }
  assert (E1 : (T + 3500 <=? T + 3499) = false) by (apply N.leb_gt; lia).
  assert (E2 : (T + 3500 <=? T + 3500) = true) by apply N.leb_refl.
  rewrite E0.
  unfold ToastContainer.wait_until, ToastContainer.push,
    ToastContainer.present, ToastStore.push, ToastContainer.effect.
  cbn -[N.add N.leb ToastContainer.at_time ToastContainer.remove].
  rewrite E1, E2.
  unfold ToastContainer.remove, ToastStore.remove, ToastContainer.at_time.
  cbn -[N.add N.max N.leb]. rewrite N.eqb_refl.
  cbn. split; reflexivity.
Qed.

(** ** The examples of the specification, run *)

Example resolve_md_plain_text :
  resolve_md (lit "Plain text") = lit "Plain text".
Proof. reflexivity. Qed.

Example resolve_md_json_string :
  resolve_md (quoted (lit "Quoted")) = lit "Quoted".
Proof. reflexivity. Qed.

Example resolve_md_response_field :
  resolve_md (object1 (lit "response") (lit "Nested")) = lit "Nested".
Proof. reflexivity. Qed.

(** A JSON value of another kind, or an object without a string
    [response], leaves the raw body as the text. *)
Example resolve_md_other_json :
  resolve_md (lit "42") = lit "42"
  /\ resolve_md (object1 (lit "answer") (lit "x"))
     = object1 (lit "answer") (lit "x").
Proof. split; reflexivity. Qed.

Example chat_success_example :
  let w2 := dispatch sample_syntax_message sample_type_message ModelChat
              (lit "hello") (lit "auto")
              (Responded (mkResponse 200
                            (BodyText (chat_body (lit "Hi")
                                         (lit "gpt-4o-mini")))))
              sample_world in
  ChatPage.messages (chat (state w2))
  = [mkChatMessage (lit "uuid-0") user (Some (JString (lit "hello"))) None;
     mkChatMessage (lit "uuid-1") ai (Some (JString (lit "Hi")))
       (Some (JString (lit "gpt-4o-mini")))]
  /\ toasts w2 = [].
Proof. split; reflexivity. Qed.

(** ** Instances *)

Lemma explorer_text_precedence_witness :
  messages_of BlockExplorer
    (state (dispatch sample_syntax_message sample_type_message BlockExplorer
              (lit " last block? ") []
              (Responded (mkResponse 200
                            (BodyText (object1 (lit "response")
                                         (lit "Nested")))))
              sample_world))
  = [mkChatMessage (lit "uuid-0") user (Some (JString (lit "last block?")))
       None;
     mkChatMessage (lit "uuid-1") ai (Some (JString (lit "Nested"))) None].
Proof.
  destruct (explorer_text_precedence sample_syntax_message
              sample_type_message (lit " last block? ") []
              (object1 (lit "response") (lit "Nested")) 200 sample_world)
    as (md & Hm & _ & Hobj & _); [reflexivity | reflexivity |].
  rewrite Hm.
  rewrite (Hobj [(lit "response", JString (lit "Nested"))] (lit "Nested")
             eq_refl eq_refl).
  reflexivity.
Defined.

Lemma failed_dispatch_raises_one_error_witness :
  let w2 := dispatch sample_syntax_message sample_type_message ModelChat
              (lit "hello") (lit "7")
              (Responded (mkResponse 404 (BodyText (lit "model not found"))))
              sample_world in
  ChatPage.messages (chat (state w2))
  = [mkChatMessage (lit "uuid-0") user (Some (JString (lit "hello"))) None]
  /\ toasts w2 = [mkToast 1000 (lit "model not found") (Some error)].
Proof.
  apply (failed_dispatch_raises_one_error sample_syntax_message
           sample_type_message ModelChat (lit "hello") (lit "7")
           (Responded (mkResponse 404 (BodyText (lit "model not found"))))
           (ErrorObj (lit "model not found")) sample_world).
  - reflexivity.
  - apply chat_api_fails, status_fails. reflexivity.
Defined.

(** C5 as the specification states it fails on the model chat: a 2xx answer
    whose body is the empty object is a malformed body in its words, yet
    the dispatch appends an AI message, whose text is [undefined], and
    pushes no toast. *)
Lemma empty_object_body_is_not_a_failure :
  let o := Responded (mkResponse 200 (BodyText (lit "{}"))) in
  let w2 := dispatch sample_syntax_message sample_type_message ModelChat
              (lit "hello") (lit "auto") o sample_world in
  spec_failed o = true
  /\ ChatPage.messages (chat (state w2))
     = [mkChatMessage (lit "uuid-0") user (Some (JString (lit "hello"))) None;
        mkChatMessage (lit "uuid-1") ai None None]
  /\ toasts w2 = []
  /\ ~ (spec_failed o = true ->
        ChatPage.messages (chat (state w2))
        = ChatPage.messages (chat (state sample_world))
          ++ [user_turn (lit "hello") sample_world]
        /\ exists t, toasts w2 = toasts sample_world ++ [t]
                     /\ toast_type t = Some error).
Proof.
  repeat split. intros H. destruct (H eq_refl) as [Hm _]. discriminate Hm.
Qed.

Lemma failed_dispatch_keeps_user_turn_witness :
  messages_of BlockExplorer
    (state (dispatch sample_syntax_message sample_type_message BlockExplorer
              (lit "gas price") []
              (Rejected (ErrorObj (lit "Failed to fetch"))) sample_world))
  = [mkChatMessage (lit "uuid-0") user (Some (JString (lit "gas price")))
       None].
Proof.
  apply (failed_dispatch_keeps_user_turn sample_syntax_message
           sample_type_message BlockExplorer (lit "gas price") []
           (Rejected (ErrorObj (lit "Failed to fetch")))
           (ErrorObj (lit "Failed to fetch")) sample_world).
  - reflexivity.
  - apply explorer_transport_fails.
Defined.

Lemma dispatch_clears_loading_witness :
  let o := Responded (mkResponse 200 (BodyText (lit "null"))) in
  loading_of ModelChat
    (state (run_task (sendMessage sample_syntax_message sample_type_message
                        ModelChat (lit "hello") (lit "auto")) sample_world))
  = true
  /\ loading_of ModelChat
       (state (dispatch sample_syntax_message sample_type_message ModelChat
                 (lit "hello") (lit "auto") o sample_world))
     = false
  /\ pending (dispatch sample_syntax_message sample_type_message ModelChat
                (lit "hello") (lit "auto") o sample_world)
     = [].
Proof.
  destruct (dispatch_clears_loading sample_syntax_message sample_type_message
              ModelChat (lit "hello") (lit "auto")
              (Responded (mkResponse 200 (BodyText (lit "null"))))
              sample_world eq_refl) as (H1 & H2 & H3 & _).
  repeat split; assumption.
Defined.

Lemma blank_registration_rejected_locally_witness :
  let w1 := run_task
              (RegisterPage_onSubmit sample_syntax_message
                 (reloadModels sample_syntax_message)
                 (lit "  ") (lit "OpenAI") [] [] true) sample_world in
  net w1 = []
  /\ pending w1 = []
  /\ state w1 = initial_ui
  /\ toasts w1
     = [mkToast 1000 (lit "Model name and company are required")
          (Some error)].
Proof.
  apply (blank_registration_rejected_locally sample_syntax_message
           (reloadModels sample_syntax_message)
           (lit "  ") (lit "OpenAI") [] [] true sample_world).
  left. reflexivity.
Defined.

Lemma registration_outcome_witness :
  let w2 := submit sample_syntax_message
              (Responded (mkResponse 201 (BodyText (lit "{}"))))
              sample_form_world in
  RegisterPage.fields (form (state w2)) = ([], [], [], [], true)
  /\ toasts w2 = [mkToast 1000 (lit "Model registered") None]
  /\ map (fun x => (method (fst x), url (fst x))) (net w2)
     = [(POST, lit "http://localhost:8080/api/v1/llm/register");
        (GET, lit "http://localhost:8080/api/v1/llm/")].
Proof.
  destruct (registration_outcome sample_syntax_message
              (Responded (mkResponse 201 (BodyText (lit "{}"))))
              sample_form_world eq_refl eq_refl) as [Hs _].
  destruct (Hs 201 (lit "{}") (JObject []) eq_refl eq_refl eq_refl)
    as (Hf & Ht & u1 & u2 & Hn).
  cbv zeta. rewrite Hf, Ht, Hn. repeat split.
Defined.

(** * Further properties of the client *)

(** ** The toast store *)

(** A toast that was pushed under an id no other toast carries is taken
    out again by [remove] of that id, and the list is as it was before. *)
Theorem remove_push_fresh (id : N) (t : ToastInit) (ts : list Toast) :
  forallb (fun x => negb (toast_id x =? id)) ts = true ->
  ToastStore.remove id (ToastStore.push id t ts) = ts.
Proof.
  intros H. unfold ToastStore.remove, ToastStore.push.
  rewrite filter_app. cbn [filter toast_id]. rewrite N.eqb_refl.
  cbn [negb]. rewrite app_nil_r.
  induction ts as [|x r IH]; [reflexivity|].
  cbn [forallb] in H. apply andb_true_iff in H as [Hx Hr].
  cbn [filter]. rewrite Hx. f_equal. now apply IH.
Qed.

(** The id is the only key of the store: [remove] takes out every toast
    that carries the id, also two that were pushed under the same id, and
    keeps all the others in their order. *)
Theorem remove_takes_every_toast_of_the_id
  (id : N) (a b : ToastInit) (ts : list Toast) :
  ToastStore.remove id (ToastStore.push id b (ToastStore.push id a ts))
  = ToastStore.remove id ts
  /\ (forall x, In x (ToastStore.remove id ts)
                <-> In x ts /\ toast_id x <> id)
  /\ (forall other, other <> id ->
        ToastStore.remove id (ToastStore.push other a ts)
        = ToastStore.push other a (ToastStore.remove id ts)).
Proof.
  unfold ToastStore.remove, ToastStore.push. split; [|split].
  - rewrite !filter_app. cbn [filter toast_id]. rewrite N.eqb_refl.
    cbn [negb]. now rewrite !app_nil_r.
  - intros x. rewrite filter_In, negb_true_iff, N.eqb_neq. reflexivity.
  - intros other Hn. rewrite filter_app. cbn [filter toast_id].
    replace (other =? id) with false by (symmetry; now apply N.eqb_neq).
    reflexivity.
Qed.

(** ** [parseApiError] *)

(** The text that [parseApiError] gives is empty in one case only: the
    thrown value is not an [Error] and [String] turns it into the empty
    string.  For an [Error], with whatever message, the text is never
    empty. *)
Theorem parseApiError_empty_iff (e : thrown) :
  parseApiError e = [] <-> e = NonError (Some []).
Proof.
  unfold parseApiError, or_else. split.
  - destruct e as [m | [s|]].
    + destruct m; cbn; discriminate.
    + now intros ->.
    + discriminate.
  - now intros ->.
Qed.

(** ** White space *)

Lemma trimStart_suffix (s : jsstring) :
  exists p, s = p ++ trimStart s /\ forallb is_js_space p = true.
Proof.
  induction s as [|c r (p & E & Hp)]; [now exists []|].
  cbn [trimStart]. destruct (is_js_space c) eqn:Hc.
  - exists (c :: p). split.
    + rewrite <- app_comm_cons, <- E. reflexivity.
    + cbn [forallb]. now rewrite Hc, Hp.
  - now exists [].
Qed.

Lemma trimStart_head (s : jsstring) (c : N) (r : jsstring) :
  trimStart s = c :: r -> is_js_space c = false.
Proof.
  induction s as [|d t IH]; [discriminate|].
  cbn [trimStart]. destruct (is_js_space d) eqn:Hd; [exact IH|].
  now intros [= <- _].
Qed.

(** [trim] gives the empty string, or a string that neither starts nor
    ends with white space. *)
Lemma trim_shape (s : jsstring) :
  trim s = []
  \/ (is_js_space (hd 0 (trim s)) = false
      /\ is_js_space (last (trim s) 0) = false).
Proof.
  unfold trim, trimEnd.
  destruct (trimStart s) as [|c r] eqn:Es; [now left|].
  pose proof (trimStart_head _ _ _ Es) as Hc.
  destruct (trimStart_suffix (rev (c :: r))) as (p & E & Hp).
  destruct (trimStart (rev (c :: r))) as [|d t] eqn:Et.
  - exfalso. rewrite app_nil_r in E. rewrite <- E in Hp.
    cbn [rev] in Hp. rewrite forallb_app in Hp. cbn [forallb] in Hp.
    rewrite Hc in Hp. now rewrite andb_false_r in Hp.
  - right. pose proof (trimStart_head _ _ _ Et) as Hd.
    assert (El : c :: r = rev (d :: t) ++ rev p).
    { rewrite <- rev_app_distr, <- E. symmetry. apply rev_involutive. }
    split.
    + cbn [rev] in El |- *.
      destruct (rev t) as [|x y]; cbn [app] in El |- *.
      * now injection El as <- _.
      * injection El as <- _. exact Hc.
    + cbn [rev]. now rewrite last_last.
Qed.

(** What [trim] gives, [trim] leaves alone. *)
Lemma trim_idempotent (s : jsstring) : trim (trim s) = trim s.
Proof.
  destruct (trim_shape s) as [-> | [Hh Hl]]; [reflexivity|].
  set (t := trim s) in *. clearbody t.
  destruct t as [|c r]; [reflexivity|]. cbn [hd] in Hh.
  unfold trim, trimEnd. cbn [trimStart]. rewrite Hh.
  assert (Er : exists u, rev (c :: r) = last (c :: r) 0 :: u).
  { destruct (exists_last (l := c :: r)) as (u & x & E); [discriminate|].
    rewrite E, last_last, rev_app_distr. now exists (rev u). }
  destruct Er as (u & Er). rewrite Er. cbn [trimStart]. rewrite Hl.
  rewrite <- Er. apply rev_involutive.
Qed.

Section Further.

(** The messages of the engine's own errors, as in [Client]. *)
Variable sem : jsstring -> jsstring.
Variable tem : jsstring -> jsstring.

(** Run a dispatch whose query is not blank up to the point where its
    [fetch] has settled, then go through the outcomes. *)
Ltac settle_dispatch Hin :=
  unfold dispatch, run_task, sendMessage, ChatPage_sendMessage,
    BlockExplorerChat_sendMessage;
  rewrite Hin; cbn -[settle issue];
  rewrite settle_issue by reflexivity;
  rewrite network_no_signal by reflexivity;
  cbn.

Ltac by_outcome o :=
  let e := fresh "e" in
  let st := fresh "st" in
  let raw := fresh "raw" in
  destruct o as [e | [st [raw | e]]]; cbn;
  [ | destruct (ok (mkResponse st (BodyText raw))); cbn
    | destruct (ok (mkResponse st (BodyFail e))); cbn ].

(** ** The API client *)

(** [apiGet] and [apiPost] make one [fetch], to [API_BASE] followed by the
    path, and do nothing else: once it has settled they return the parsed
    JSON of a 2xx body, and in every other case they throw, a status
    outside 2xx giving an [Error] whose message is the raw body text,
    which is not parsed even when it is JSON. *)
Theorem api_client_settles (path : jsstring) (body : json)
  (signal : option nat) :
  exists kg kp,
    apiGet sem path signal
    = Await (mkRequest (API_BASE ++ path) GET [] None signal) kg
    /\ apiPost sem path body signal
       = Await (mkRequest (API_BASE ++ path) POST json_headers (Some body)
                  signal) kp
    /\ forall o,
         kg o = kp o
         /\ ((exists st raw v,
                 o = Responded (mkResponse st (BodyText raw))
                 /\ ok (mkResponse st (BodyText raw)) = true
                 /\ JSON_parse raw = Some v
                 /\ kp o = Ret v)
             \/ (exists e, api_fails sem o e /\ kp o = Throw e)).
Proof.
  unfold apiGet, apiPost, fetch. cbn [bind].
  do 2 eexists. split; [reflexivity|]. split; [reflexivity|].
  intros o. split; [reflexivity|].
  destruct o as [e | [st [raw | e]]]; cbn.
  - right. exists e. split; [constructor | reflexivity].
  - destruct (ok (mkResponse st (BodyText raw))) eqn:Hok; cbn.
    + destruct (JSON_parse raw) as [v|] eqn:Hp.
      * left. exists st, raw, v. repeat split; assumption.
      * right. eexists. split; [now apply syntax_fails | reflexivity].
    + right. eexists. split; [now apply status_fails | reflexivity].
  - right. exists e. split; [constructor|].
    destruct (ok (mkResponse st (BodyFail e))); reflexivity.
Qed.

(** ** Dispatches *)

(** A status outside 2xx with an empty body, on either surface: the toast
    does not come out empty, its text is ["Request failed"]. *)
Theorem empty_error_body_falls_back
  (sf : surface) (input sel : jsstring) (st : N) (w : world) :
  whitespace_only input = false ->
  ok (mkResponse st (BodyText [])) = false ->
  toasts (dispatch sem tem sf input sel
            (Responded (mkResponse st (BodyText []))) w)
  = toasts w
    ++ [mkToast (toast_id_at (env w) (toast_next w)) (lit "Request failed")
          (Some error)].
Proof.
  intros Hin Hok. rewrite <- is_empty_trim in Hin.
  assert (Hf : fails sem tem sf (Responded (mkResponse st (BodyText [])))
                 (ErrorObj [])).
  { destruct sf; [apply chat_api_fails|]; now constructor. }
  exact (proj1 (proj2 (dispatch_fails sem tem sf input sel _ _ w Hin Hf))).
Qed.


(** A dispatch on one surface leaves the rest of the page alone: the
    other conversation with its input and flag, the registration form, the
    model list, and on the model chat the selection. *)
Theorem dispatch_frames_other_components
  (sf : surface) (input sel : jsstring) (o : fetch_outcome) (w : world) :
  let u := state (dispatch sem tem sf input sel o w) in
  app u = app (state w)
  /\ form u = form (state w)
  /\ match sf with
     | ModelChat =>
         explorer u = explorer (state w)
         /\ ChatPage.selectedModel (chat u)
            = ChatPage.selectedModel (chat (state w))
     | BlockExplorer => chat u = chat (state w)
     end.
Proof.
  destruct (is_empty (trim input)) eqn:Hin.
  - assert (E : dispatch sem tem sf input sel o w = w).
    { unfold dispatch, run_task, sendMessage, ChatPage_sendMessage,
        BlockExplorerChat_sendMessage, settle.
      destruct sf; rewrite Hin; cbn;
        replace (nth_error (pending w) (List.length (pending w)))
          with (@None (request * (fetch_outcome -> prog unit)))
          by (symmetry; apply nth_error_None; apply Nat.le_refl);
        now destruct w. }
    rewrite E. destruct sf; repeat split.
  - destruct sf; settle_dispatch Hin; by_outcome o;
      try solve [repeat split].
    destruct (JSON_parse raw) as [[]|]; repeat split.
Qed.

(** A conversation only grows, at its end: whatever the outcome, a
    dispatch leaves the earlier messages in place and adds the user turn,
    followed by at most one message, an AI message. *)
Theorem dispatch_appends_only
  (sf : surface) (input sel : jsstring) (o : fetch_outcome) (w : world) :
  whitespace_only input = false ->
  exists tail,
    messages_of sf (state (dispatch sem tem sf input sel o w))
    = messages_of sf (state w) ++ user_turn input w :: tail
    /\ (tail = []
        \/ exists r v,
             tail = [mkChatMessage (uuid_at (env w) (S (uuid_next w))) ai
                       r v]).
Proof.
  intros Hin. rewrite <- is_empty_trim in Hin.
  assert (Fin : forall (ms : list ChatMessage) (u a : ChatMessage),
             (ms ++ [u]) ++ [a] = ms ++ u :: [a])
    by (intros; now rewrite <- app_assoc).
  destruct sf; settle_dispatch Hin; by_outcome o;
    try (exists []; split; [reflexivity | now left]);
    try (eexists; split; [apply Fin | right; do 2 eexists; reflexivity]).
  destruct (JSON_parse raw) as [[]|]; cbn;
    try (exists []; split; [reflexivity | now left]);
    eexists; (split; [apply Fin | right; do 2 eexists; reflexivity]).
Qed.

(** The text of a user message is never blank and carries no white space
    at either end, and trimming it again changes nothing. *)
Theorem user_turn_text_is_trimmed
  (sf : surface) (input sel : jsstring) (w : world) :
  whitespace_only input = false ->
  exists t,
    messages_of sf (state (run_task (sendMessage sem tem sf input sel) w))
    = messages_of sf (state w)
      ++ [mkChatMessage (next_uuid w) user (Some (JString t)) None]
    /\ t <> []
    /\ is_js_space (hd 0 t) = false
    /\ is_js_space (last t 0) = false
    /\ trim t = t.
Proof.
  intros Hin. rewrite <- is_empty_trim in Hin.
  exists (trim input). split; [|split; [|split; [|split]]].
  - destruct sf; unfold run_task, sendMessage, ChatPage_sendMessage,
      BlockExplorerChat_sendMessage; rewrite Hin; reflexivity.
  - intros E. now rewrite E in Hin.
  - destruct (trim_shape input) as [E | [H _]]; [now rewrite E in Hin | exact H].
  - destruct (trim_shape input) as [E | [_ H]]; [now rewrite E in Hin | exact H].
  - apply trim_idempotent.
Qed.

(** ** Registration *)

(** A submission with both names filled in posts exactly one request; once
    the handler has yielded, with the request pending, the [submitting]
    flag is set and no toast has been pushed.  The body of the request
    carries the two names as they were typed, not trimmed; [baseUrl] and
    [apiKey] are [null] exactly when their fields are empty, so a field of
    white space is sent as that string. *)
Theorem register_posts_fields_as_typed
  (onRegistered : prog unit) (modelName companyName baseUrl apiKey : jsstring)
  (openAiCompatible : bool) (w : world) :
  whitespace_only modelName = false ->
  whitespace_only companyName = false ->
  let w1 := run_task (RegisterPage_onSubmit sem onRegistered modelName
                        companyName baseUrl apiKey openAiCompatible) w in
  exists ms u k,
    let r := mkRequest (API_BASE ++ lit "/register") POST json_headers
               (Some (JObject ms)) None in
    net w1 = net w ++ [(r, u)]
    /\ pending w1 = pending w ++ [(r, k)]
    /\ RegisterPage.submitting (form (state w1)) = true
    /\ toasts w1 = toasts w
    /\ lookup_last (lit "modelName") ms = Some (JString modelName)
    /\ lookup_last (lit "companyName") ms = Some (JString companyName)
    /\ (lookup_last (lit "baseUrl") ms = Some JNull <-> baseUrl = [])
    /\ (lookup_last (lit "apiKey") ms = Some JNull <-> apiKey = [])
    /\ lookup_last (lit "openAiCompatible") ms
       = Some (JBool openAiCompatible).
Proof.
  intros Hm Hc. rewrite <- is_empty_trim in Hm, Hc.
  unfold run_task, RegisterPage_onSubmit. rewrite Hm, Hc. cbn.
  do 3 eexists. split; [reflexivity|]. split; [reflexivity|].
  split; [reflexivity|]. split; [reflexivity|].
  split; [reflexivity|]. split; [reflexivity|].
  assert (Hn : forall x, or_null x = JNull <-> x = []).
  { intros [|c r]; cbn; split; intros H; try reflexivity; discriminate. }
  split; [|split].
  - change (lookup_last (lit "baseUrl") _) with (Some (or_null baseUrl)).
    rewrite <- Hn. split; [now intros [= ->] | now intros ->].
  - change (lookup_last (lit "apiKey") _) with (Some (or_null apiKey)).
    rewrite <- Hn. split; [now intros [= ->] | now intros ->].
  - reflexivity.
Qed.

(** However the registration request settles, the [submitting] flag is
    false when the submission has ended. *)
Theorem submit_clears_submitting (o : fetch_outcome) (w : world) :
  RegisterPage.submitting (form (state (submit sem o w)))
  = if whitespace_only (RegisterPage.modelName (form (state w)))
       || whitespace_only (RegisterPage.companyName (form (state w)))
    then RegisterPage.submitting (form (state w))
    else false.
Proof.
  rewrite <- !is_empty_trim. unfold submit, run_task, RegisterPage_onSubmit.
  destruct (is_empty (trim (RegisterPage.modelName (form (state w))))
            || is_empty (trim (RegisterPage.companyName (form (state w)))))
    eqn:E.
  - cbn. unfold settle. cbn.
    replace (nth_error (pending w) (List.length (pending w)))
      with (@None (request * (fetch_outcome -> prog unit)))
      by (symmetry; apply nth_error_None; apply Nat.le_refl).
    reflexivity.
  - cbn -[settle issue]. rewrite settle_issue by reflexivity.
    rewrite network_no_signal by reflexivity. cbn.
    by_outcome o; try reflexivity.
    destruct (JSON_parse raw); reflexivity.
Qed.

(** ** The model list *)

(** A refresh replaces the list as a whole by what the server sent and
    pushes no toast; a refresh that fails keeps the list that was there and
    pushes one error toast.  Neither shows the loading state. *)
Theorem reload_outcome (o : fetch_outcome) (w : world) :
  let w2 := reload sem o w in
  App.loadingModels (app (state w2)) = App.loadingModels (app (state w))
  /\ (forall st raw v,
        o = Responded (mkResponse st (BodyText raw)) ->
        ok (mkResponse st (BodyText raw)) = true ->
        JSON_parse raw = Some v ->
        App.llms (app (state w2)) = Some v /\ toasts w2 = toasts w)
  /\ (forall e,
        api_fails sem o e ->
        App.llms (app (state w2)) = App.llms (app (state w))
        /\ toasts w2
           = toasts w ++ [pushed (mkToastInit (parseApiError e) (Some error))
                            w]).
Proof.
  unfold reload, run_task, reloadModels. cbn -[settle issue].
  rewrite settle_issue by reflexivity.
  rewrite network_no_signal by reflexivity. cbn.
  split; [|split].
  - by_outcome o; try reflexivity. destruct (JSON_parse raw); reflexivity.
  - intros st raw v -> Hok Hp. cbn. rewrite Hok. cbn. rewrite Hp.
    split; reflexivity.
  - intros e Ha.
    destruct Ha as [e | st t Hok | st e | st raw Hok Hp]; cbn;
      try rewrite Hok; cbn.
    + split; reflexivity.
    + split; reflexivity.
    + destruct (ok _); split; reflexivity.
    + rewrite Hp. split; reflexivity.
Qed.

(** The effect of [App] shows the loading state from the mount until its
    [fetch] has settled, however it settles; when the [fetch] fails the
    list is left as it was, so after a failed first load it is still
    [null], not an empty list. *)
Theorem mount_loading_lifecycle (o : fetch_outcome) (w : world) :
  App.loadingModels (app (state (snd (mount_App sem w)))) = true
  /\ App.loadingModels (app (state (mount_and_settle sem o w))) = false
  /\ (forall e,
        api_fails sem o e ->
        App.llms (app (state (mount_and_settle sem o w)))
        = App.llms (app (state w))).
Proof.
  unfold mount_and_settle, mount_App. cbn -[settle issue].
  split; [reflexivity|].
  rewrite settle_issue by reflexivity.
  rewrite network_no_signal by reflexivity. cbn.
  split.
  - by_outcome o; try reflexivity. destruct (JSON_parse raw); reflexivity.
  - intros e Ha.
    destruct Ha as [e | st t Hok | st e | st raw Hok Hp]; cbn;
      try rewrite Hok; cbn; try reflexivity.
    + destruct (ok _); reflexivity.
    + rewrite Hp. reflexivity.
Qed.

(** ** The keyboard shortcut *)

(** While a dispatch is in flight the Send button does nothing, but
    Cmd/Ctrl + Enter does not look at the flag: with a query in the input
    it sends another request to [/chat]. *)
Theorem keyboard_send_ignores_loading (w : world) :
  ChatPage.loading (chat (state w)) = true ->
  whitespace_only (fst (onEnter w)) = false ->
  click_send sem tem w = w
  /\ exists r u,
       net (ctrl_enter sem tem w) = net w ++ [(r, u)]
       /\ url r = API_BASE ++ lit "/chat".
Proof.
  intros Hl Hin. rewrite <- is_empty_trim in Hin. split.
  - unfold click_send. now rewrite Hl.
  - unfold ctrl_enter. rewrite net_rerender.
    unfold run_task, ChatPage_sendMessage. rewrite Hin. cbn.
    do 2 eexists. split; reflexivity.
Qed.

Lemma jsstring_eqb_true (a b : jsstring) : jsstring_eqb a b = true -> a = b.
Proof.
  unfold jsstring_eqb. now destruct (list_eq_dec N.eq_dec a b).
Qed.

Lemma rerender_fresh (before : ui) (w : world) :
  fst (onEnter w) = ChatPage.input (chat before) ->
  listener_fresh (rerender_ChatPage before w).
Proof.
  intros H. unfold rerender_ChatPage, listener_fresh.
  destruct (jsstring_eqb (ChatPage.input (chat before))
              (ChatPage.input (chat (state w)))) eqn:E.
  - apply jsstring_eqb_true in E. congruence.
  - reflexivity.
Qed.

Lemma pending_rerender (before : ui) (w : world) :
  pending (rerender_ChatPage before w) = pending w.
Proof.
  unfold rerender_ChatPage.
  now destruct (jsstring_eqb (ChatPage.input (chat before)) _).
Qed.

Lemma Forall_remove_nth {X : Type} (P : X -> Prop) (l : list X) :
  Forall P l -> forall i, Forall P (remove_nth i l).
Proof.
  induction 1 as [|x r Hx Hr IH]; intros i; [now destruct i|].
  destruct i as [|j]; cbn; [assumption | now constructor].
Qed.

(** The body that [ChatPage.sendMessage] leaves waiting is quiet, and the
    call itself does not touch the listener. *)
Lemma chat_send_quiet (input sel : jsstring) (w : world) :
  Forall (fun rk => quiet (snd rk)) (pending w) ->
  onEnter (run_task (ChatPage_sendMessage sem tem input sel) w) = onEnter w
  /\ Forall (fun rk => quiet (snd rk))
       (pending (run_task (ChatPage_sendMessage sem tem input sel) w)).
Proof.
  intros Hq. unfold run_task, ChatPage_sendMessage.
  destruct (is_empty (trim input)); cbn; [now split|].
  split; [reflexivity|]. apply Forall_app. split; [assumption|].
  constructor; [|constructor]. cbn [snd]. intros o w0.
  unfold run_task. cbn. by_outcome o; try solve [repeat split].
  destruct (JSON_parse raw) as [[]|]; repeat split.
Qed.

Lemma settle_quiet (i : nat) (o : fetch_outcome) (w : world) :
  Forall (fun rk => quiet (snd rk)) (pending w) ->
  onEnter (settle i o w) = onEnter w
  /\ ChatPage.input (chat (state (settle i o w)))
     = ChatPage.input (chat (state w))
  /\ Forall (fun rk => quiet (snd rk)) (pending (settle i o w)).
Proof.
  intros Hq. unfold settle.
  destruct (nth_error (pending w) i) as [[r k]|] eqn:E; [|now repeat split].
  assert (Hk : quiet k).
  { apply nth_error_In in E. rewrite Forall_forall in Hq.
    exact (Hq _ E). }
  destruct (Hk (network r o w) (set_pending (remove_nth i (pending w)) w))
    as (H1 & H2 & H3).
  rewrite H1, H2, H3. repeat split. cbn [pending set_pending].
  now apply Forall_remove_nth.
Qed.

(** Whatever has happened on the model chat since the page loaded, the
    [keydown] listener holds the text that is in the input now: the
    shortcut never sends an older query. *)
Theorem listener_input_is_current (evs : list ChatEvent) (e : oracle) :
  listener_fresh (play sem tem evs (initial_world e)).
Proof.
  unfold play.
  assert (J : listener_fresh (initial_world e)
              /\ Forall (fun rk => quiet (snd rk))
                   (pending (initial_world e))).
  { split; [reflexivity | constructor]. }
  revert J. generalize (initial_world e).
  induction evs as [|ev evs IH]; intros w [Hf Hq]; [exact Hf|].
  cbn [fold_left]. apply IH. clear IH.
  destruct ev as [v | v | | | i o]; cbn [step].
  - unfold type_input. split.
    + apply rerender_fresh. exact Hf.
    + rewrite pending_rerender. exact Hq.
  - unfold select_model. split.
    + apply rerender_fresh. exact Hf.
    + rewrite pending_rerender. exact Hq.
  - unfold click_send.
    destruct (ChatPage.loading (chat (state w))
              || is_empty (trim (ChatPage.input (chat (state w)))));
      [now split|].
    destruct (chat_send_quiet (ChatPage.input (chat (state w)))
                (ChatPage.selectedModel (chat (state w))) w Hq) as [H1 H2].
    split.
    + apply rerender_fresh. rewrite H1. exact Hf.
    + rewrite pending_rerender. exact H2.
  - unfold ctrl_enter.
    destruct (chat_send_quiet (fst (onEnter w)) (snd (onEnter w)) w Hq)
      as [H1 H2].
    split.
    + apply rerender_fresh. rewrite H1. exact Hf.
    + rewrite pending_rerender. exact H2.
  - destruct (settle_quiet i o w Hq) as (H1 & H2 & H3). split.
    + apply rerender_fresh. rewrite H1. exact Hf.
    + rewrite pending_rerender. exact H3.
Qed.

(** ** Message ids *)

(** One more id, drawn next, may be put anywhere among ids that were drawn
    before: all are drawn, and no two are equal. *)
Lemma insert_drawn_id (f : nat -> jsstring) (n : nat) (A B : list jsstring) :
  (forall a b, f a = f b -> a = b) ->
  (forall i, In i (A ++ B) -> exists m, (m < n)%nat /\ i = f m) ->
  NoDup (A ++ B) ->
  (forall i, In i (A ++ f n :: B) -> exists m, (m < S n)%nat /\ i = f m)
  /\ NoDup (A ++ f n :: B).
Proof.
  intros Hinj Hd Hn. split.
  - intros i Hi. apply in_app_or in Hi as [Hi | [<- | Hi]].
    + destruct (Hd i) as (m & Hm & E); [apply in_or_app; now left|].
      exists m. split; [lia | exact E].
    + exists n. split; [lia | reflexivity].
    + destruct (Hd i) as (m & Hm & E); [apply in_or_app; now right|].
      exists m. split; [lia | exact E].
  - apply (NoDup_Add (Add_app (f n) A B)). split; [exact Hn|].
    intros Hi. destruct (Hd _ Hi) as (m & Hm & E).
    apply Hinj in E. lia.
Qed.

(** When [crypto.randomUUID()] never returns the same value twice, the
    messages keep distinct ids: a dispatch on either surface, however it
    ends, adds only ids that no message of either conversation has. *)
Theorem dispatch_keeps_message_ids_distinct
  (sf : surface) (input sel : jsstring) (o : fetch_outcome) (w : world) :
  (forall a b, uuid_at (env w) a = uuid_at (env w) b -> a = b) ->
  ids_drawn w ->
  NoDup (conversation_ids w) ->
  ids_drawn (dispatch sem tem sf input sel o w)
  /\ NoDup (conversation_ids (dispatch sem tem sf input sel o w)).
Proof.
  intros Hinj Hd Hn.
  destruct (is_empty (trim input)) eqn:Hin.
  - assert (E : dispatch sem tem sf input sel o w = w).
    { unfold dispatch, run_task, sendMessage, ChatPage_sendMessage,
        BlockExplorerChat_sendMessage, settle.
      destruct sf; rewrite Hin; cbn;
        replace (nth_error (pending w) (List.length (pending w)))
          with (@None (request * (fetch_outcome -> prog unit)))
          by (symmetry; apply nth_error_None; apply Nat.le_refl);
        now destruct w. }
    rewrite E. now split.
  - unfold ids_drawn, conversation_ids in *.
    set (C := ChatPage.messages (chat (state w))) in *.
    set (X := BlockExplorerChat.messages (explorer (state w))) in *.
    rewrite map_app in Hd, Hn.
    assert (One : forall A B,
               map id C ++ map id X = A ++ B ->
               (forall i, In i (A ++ uuid_at (env w) (uuid_next w) :: B) ->
                  exists m, (m < S (uuid_next w))%nat /\ i = uuid_at (env w) m)
               /\ NoDup (A ++ uuid_at (env w) (uuid_next w) :: B)).
    { intros A B E. apply insert_drawn_id; try assumption; now rewrite <- E. }
    assert (Two : forall A B,
               map id C ++ map id X = A ++ B ->
               (forall i,
                   In i (A ++ uuid_at (env w) (uuid_next w)
                           :: uuid_at (env w) (S (uuid_next w)) :: B) ->
                   exists m, (m < S (S (uuid_next w)))%nat
                             /\ i = uuid_at (env w) m)
               /\ NoDup (A ++ uuid_at (env w) (uuid_next w)
                           :: uuid_at (env w) (S (uuid_next w)) :: B)).
    { intros A B E. destruct (One A B E) as [H1 H2].
      change (A ++ uuid_at (env w) (uuid_next w)
                :: uuid_at (env w) (S (uuid_next w)) :: B)
        with (A ++ [uuid_at (env w) (uuid_next w)]
                ++ uuid_at (env w) (S (uuid_next w)) :: B).
      rewrite app_assoc.
      apply insert_drawn_id; try assumption;
        rewrite <- app_assoc; assumption. }
    assert (Late : forall A B,
               map id C ++ map id X = A ++ B ->
               (forall i, In i (A ++ uuid_at (env w) (uuid_next w) :: B) ->
                  exists m, (m < S (S (uuid_next w)))%nat
                            /\ i = uuid_at (env w) m)
               /\ NoDup (A ++ uuid_at (env w) (uuid_next w) :: B)).
    { intros A B E. destruct (One A B E) as [H1 H2]. split; [|exact H2].
      intros i Hi. destruct (H1 i Hi) as (m & Hm & Em).
      exists m. split; [lia | exact Em]. }
    assert (EC : map id C ++ map id X = map id C ++ map id X) by reflexivity.
    assert (EX : map id C ++ map id X = (map id C ++ map id X) ++ [])
      by now rewrite app_nil_r.
    destruct sf; settle_dispatch Hin; fold C; fold X;
      by_outcome o;
      try (destruct (JSON_parse raw) as [[]|]; cbn);
      rewrite ?map_app; cbn [map id]; rewrite <- ?app_assoc; cbn [app];
      first [ exact (One _ _ EC) | exact (Two _ _ EC) | exact (Late _ _ EC)
            | rewrite (app_assoc (map id C) (map id X));
              first [ exact (One _ _ EX) | exact (Two _ _ EX) ] ].
Qed.

(** ** The select of the model chat *)

Lemma String_injective (a b : Z) : String_ a = String_ b -> a = b.
Proof.
  intros E. apply (f_equal Number) in E.
  rewrite !Number_String in E. now injection E.
Qed.

(** Models whose ids are safe integers and pairwise distinct get
    distinct option values, none of them ["auto"]: the value of the select
    tells which entry was chosen. *)
Theorem option_values_distinct (llms : list Llm.t) :
  (forall m, In m llms -> isSafeInteger (Llm.id m) = true) ->
  NoDup (map Llm.id llms) -> NoDup (option_values llms).
Proof.
  intros _ H. unfold option_values. constructor.
  - intros Hin. apply in_map_iff in Hin as (m & E & _).
    pose proof (String_not_auto (Llm.id m)) as Hna.
    rewrite E in Hna. unfold jsstring_eqb in Hna.
    now destruct (list_eq_dec N.eq_dec (lit "auto") (lit "auto")).
  - induction llms as [|m r IH]; [constructor|].
    cbn [map] in H |- *. inversion H as [|x l Hx Hr]; subst.
    constructor; [|now apply IH].
    intros Hin. apply in_map_iff in Hin as (m' & E & Hm').
    apply String_injective in E. apply Hx. rewrite <- E.
    now apply in_map.
Qed.

End Further.

(** ** The text of a block explorer answer *)

(** A code unit other than the quote and the backslash is read as
    itself. *)
Lemma parse_chars_plain_step (c : N) (r : jsstring) :
  c <> 34 -> c <> 92 ->
  parse_chars (c :: r)
  = if c <? 32 then None
    else match parse_chars r with
         | Some (cs, rest) => Some (c :: cs, rest)
         | None => None
         end.
Proof.
  intros H1 H2.
  destruct c as [|p]; [reflexivity|].
  do 7 (try (destruct p as [p|p|])); try reflexivity; congruence.
Qed.

Lemma parse_chars_plain (s rest : jsstring) :
  plain s = true -> parse_chars (s ++ 34 :: rest) = Some (s, rest).
Proof.
  induction s as [|c r IH]; [reflexivity|].
  cbn [plain forallb]. intros H. apply andb_true_iff in H as [Hc Hr].
  unfold plain_char in Hc.
  apply andb_true_iff in Hc as [Hc H32]. apply andb_true_iff in Hc as [H34 H92].
  apply negb_true_iff, N.eqb_neq in H34, H92.
  rewrite <- app_comm_cons, parse_chars_plain_step by assumption.
  replace (c <? 32) with false by (symmetry; apply N.ltb_ge; now apply N.leb_le).
  now rewrite (IH Hr).
Qed.

Lemma JSON_parse_quoted (s : jsstring) :
  plain s = true -> JSON_parse (quoted s) = Some (JString s).
Proof.
  intros H. unfold JSON_parse.
  set (n := List.length (quoted s)).
  replace (2 * n + 2)%nat with (S (2 * n + 1))%nat by lia.
  unfold quoted. cbn [parse_value skip_ws].
  change (is_json_ws 34) with false. cbv iota.
  rewrite (parse_chars_plain s [] H). reflexivity.
Qed.

(** A body that is the JSON string literal of a text without quotes,
    backslashes and control characters is unwrapped: the message text is
    the text between the quotes. *)
Theorem resolve_md_unwraps_quoted (s : jsstring) :
  plain s = true -> resolve_md (quoted s) = s.
Proof. intros H. unfold resolve_md. now rewrite JSON_parse_quoted. Qed.

Lemma parse_value_string (f : nat) (r : jsstring) :
  parse_value (S f) (34 :: r)
  = match parse_chars r with
    | Some (cs, rest) => Some (JString cs, rest)
    | None => None
    end.
Proof. reflexivity. Qed.

Lemma parse_value_object (f : nat) (r : jsstring) :
  parse_value (S f) (123 :: 34 :: r)
  = match parse_members f (34 :: r) with
    | Some (ms, rest) => Some (JObject ms, rest)
    | None => None
    end.
Proof. reflexivity. Qed.

Lemma parse_members_last (f : nat) (key cs : jsstring) (rest : jsstring) :
  plain key = true -> plain cs = true ->
  parse_members (S (S f)) (34 :: key ++ 34 :: 58 :: 34 :: cs ++ 34 :: 125 :: rest)
  = Some ([(key, JString cs)], rest).
Proof.
  intros Hk Hc. cbn [parse_members skip_ws].
  change (is_json_ws 34) with false. cbv iota.
  rewrite (parse_chars_plain key _ Hk). cbn [skip_ws].
  change (is_json_ws 58) with false. cbv iota.
  rewrite parse_value_string, (parse_chars_plain cs _ Hc).
  reflexivity.
Qed.

Lemma object1_text (key s : jsstring) :
  object1 key s
  = 123 :: 34 :: key ++ 34 :: 58 :: 34 :: s ++ 34 :: 125 :: [].
Proof.
  unfold object1, quoted.
  change (lit "{") with [123]. change (lit ":") with [58].
  change (lit "}") with [125]. simpl.
  repeat (rewrite <- app_assoc; simpl). reflexivity.
Qed.

Lemma JSON_parse_object1 (key s : jsstring) :
  plain key = true -> plain s = true ->
  JSON_parse (object1 key s) = Some (JObject [(key, JString s)]).
Proof.
  intros Hk Hs. unfold JSON_parse.
  set (n := List.length (object1 key s)).
  assert (Hn : (1 <= n)%nat).
  { subst n. rewrite object1_text. cbn [List.length]. lia. }
  replace (2 * n + 2)%nat with (S (S (S (2 * n - 1))))%nat by lia.
  rewrite object1_text, parse_value_object, parse_members_last by assumption.
  reflexivity.
Qed.

(** A body that is a JSON object with the one field [response], a string
    without quotes, backslashes and control characters, gives that string
    as the message text. *)
Theorem resolve_md_takes_response (s : jsstring) :
  plain s = true -> resolve_md (object1 (lit "response") s) = s.
Proof.
  intros H. unfold resolve_md.
  rewrite JSON_parse_object1 by (reflexivity || assumption).
  reflexivity.
Qed.

(** ** Expiry of toasts, continued *)

Lemma find_all_false {X : Type} (f : X -> bool) (l : list X) :
  Forall (fun x => f x = false) l -> find f l = None.
Proof.
  induction 1 as [|x r Hx _ IH]; [reflexivity|].
  cbn [find]. now rewrite Hx.
Qed.

(** After a push no toast leaves the list for 3500 ms: whatever was in the
    list, and however long it had been there, up to that moment the list
    is the old one followed by the new toast. *)
Theorem toast_stays_3500_after_push (id T : N) (t : ToastInit)
  (p : ToastContainer.page) :
  T < ToastContainer.now p + 3500 ->
  ToastContainer.toasts
    (ToastContainer.wait_until T (ToastContainer.push id t p))
  = ToastContainer.toasts p ++ [mkToast id (init_text t) (init_type t)].
Proof.
  intros HT. unfold ToastContainer.wait_until.
  cbn [ToastContainer.advance]. unfold ToastContainer.next_due.
  rewrite find_all_false; [reflexivity|].
  destruct (push_resets_all_timers id t p) as [_ Hd].
  eapply Forall_impl; [|exact Hd].
  intros x Hx. cbn beta in Hx. rewrite Hx. apply N.leb_gt. exact HT.
Qed.

(** ** Instances of the further properties *)

Lemma remove_push_fresh_witness :
  ToastStore.remove 7
    (ToastStore.push 7 (mkToastInit (lit "saved") None)
       [mkToast 3 (lit "old") (Some error)])
  = [mkToast 3 (lit "old") (Some error)].
Proof.
  apply (remove_push_fresh 7 (mkToastInit (lit "saved") None)
           [mkToast 3 (lit "old") (Some error)]).
  reflexivity.
Defined.

Lemma empty_error_body_falls_back_witness :
  toasts (dispatch sample_syntax_message sample_type_message BlockExplorer
            (lit "gas price") [] (Responded (mkResponse 500 (BodyText [])))
            sample_world)
  = [mkToast 1000 (lit "Request failed") (Some error)].
Proof.
  apply (empty_error_body_falls_back sample_syntax_message
           sample_type_message BlockExplorer (lit "gas price") [] 500
           sample_world); reflexivity.
Defined.


Lemma dispatch_appends_only_witness :
  exists tail,
    ChatPage.messages
      (chat (state (dispatch sample_syntax_message sample_type_message
                      ModelChat (lit "hello") (lit "auto")
                      (Responded (mkResponse 200 (BodyText (lit "{}"))))
                      sample_world)))
    = mkChatMessage (lit "uuid-0") user (Some (JString (lit "hello"))) None
      :: tail
    /\ (tail = []
        \/ exists r v, tail = [mkChatMessage (lit "uuid-1") ai r v]).
Proof.
  apply (dispatch_appends_only sample_syntax_message sample_type_message
           ModelChat (lit "hello") (lit "auto")
           (Responded (mkResponse 200 (BodyText (lit "{}")))) sample_world).
  reflexivity.
Defined.

Lemma user_turn_text_is_trimmed_witness :
  exists t,
    BlockExplorerChat.messages
      (explorer (state (run_task
                          (sendMessage sample_syntax_message
                             sample_type_message BlockExplorer
                             (lit "  gas price ") [])
                          sample_world)))
    = [mkChatMessage (lit "uuid-0") user (Some (JString t)) None]
    /\ t <> []
    /\ is_js_space (hd 0 t) = false
    /\ is_js_space (last t 0) = false
    /\ trim t = t.
Proof.
  apply (user_turn_text_is_trimmed sample_syntax_message sample_type_message
           BlockExplorer (lit "  gas price ") [] sample_world).
  reflexivity.
Defined.

Lemma register_posts_fields_as_typed_witness :
  exists ms,
    map (fun x => body (fst x))
      (net (run_task
              (RegisterPage_onSubmit sample_syntax_message
                 (reloadModels sample_syntax_message)
                 (lit " gpt-4o ") (lit "OpenAI") (lit " ") [] true)
              sample_world))
    = [Some (JObject ms)]
    /\ lookup_last (lit "modelName") ms = Some (JString (lit " gpt-4o "))
    /\ lookup_last (lit "baseUrl") ms <> Some JNull
    /\ lookup_last (lit "apiKey") ms = Some JNull.
Proof.
  destruct (register_posts_fields_as_typed sample_syntax_message
              (reloadModels sample_syntax_message)
              (lit " gpt-4o ") (lit "OpenAI") (lit " ") [] true sample_world
              eq_refl eq_refl)
    as (ms & u & k & Hn & _ & _ & _ & Hm & _ & Hb & Hk & _).
  exists ms. rewrite Hn. split; [reflexivity|]. split; [exact Hm|].
  split; [|now apply Hk].
  intros E. apply Hb in E. discriminate E.
Defined.

Lemma keyboard_send_ignores_loading_witness :
  let w := type_input (lit "second")
             (ctrl_enter sample_syntax_message sample_type_message
                (type_input (lit "first") sample_world)) in
  ChatPage.loading (chat (state w)) = true
  /\ click_send sample_syntax_message sample_type_message w = w
  /\ List.length (pending w) = 1%nat
  /\ List.length
       (pending (ctrl_enter sample_syntax_message sample_type_message w))
     = 2%nat.
Proof.
  destruct (keyboard_send_ignores_loading sample_syntax_message
              sample_type_message
              (type_input (lit "second")
                 (ctrl_enter sample_syntax_message sample_type_message
                    (type_input (lit "first") sample_world)))
              eq_refl eq_refl) as [Hc _].
  split; [reflexivity|]. split; [exact Hc|]. split; reflexivity.
Defined.

Lemma resolve_md_unwraps_quoted_witness :
  resolve_md (quoted (lit "Block 42 holds 3 transactions."))
  = lit "Block 42 holds 3 transactions.".
Proof.
  apply (resolve_md_unwraps_quoted (lit "Block 42 holds 3 transactions.")).
  reflexivity.
Defined.

Lemma resolve_md_takes_response_witness :
  resolve_md (object1 (lit "response") (lit "Block 42 holds 3 transactions."))
  = lit "Block 42 holds 3 transactions.".
Proof.
  apply (resolve_md_takes_response (lit "Block 42 holds 3 transactions.")).
  reflexivity.
Defined.

Lemma option_values_distinct_witness :
  NoDup (option_values
           [Llm.mk 3 (lit "gpt-4o-mini") (lit "OpenAI") None None true;
            Llm.mk 12 (lit "llama") (lit "Meta") (Some (lit "http://x")) None
              false]).
Proof.
  apply (option_values_distinct
           [Llm.mk 3 (lit "gpt-4o-mini") (lit "OpenAI") None None true;
            Llm.mk 12 (lit "llama") (lit "Meta") (Some (lit "http://x")) None
              false]).
  - intros m [<- | [<- | []]]; reflexivity.
  - cbn [map Llm.id]. repeat constructor; cbn [In]; intuition discriminate.
Defined.

Lemma toast_stays_3500_after_push_witness :
  ToastContainer.toasts
    (ToastContainer.wait_until 4499
       (ToastContainer.push 2 (mkToastInit (lit "b") None)
          (ToastContainer.wait_until 1000
             (ToastContainer.push 1 (mkToastInit (lit "a") None)
                ToastContainer.initial))))
  = [mkToast 1 (lit "a") None; mkToast 2 (lit "b") None].
Proof.
  apply (toast_stays_3500_after_push 2 4499 (mkToastInit (lit "b") None)
           (ToastContainer.wait_until 1000
              (ToastContainer.push 1 (mkToastInit (lit "a") None)
                 ToastContainer.initial))).
  reflexivity.
Defined.

Lemma sample_uuids_injective (a b : nat) :
  uuid_at sample_oracle a = uuid_at sample_oracle b -> a = b.
Proof.
  cbn [uuid_at sample_oracle]. intros E.
  apply app_inv_head, String_injective in E. lia.
Qed.

Lemma dispatch_keeps_message_ids_distinct_witness :
  NoDup (conversation_ids
           (dispatch sample_syntax_message sample_type_message ModelChat
              (lit "hello") (lit "auto")
              (Responded (mkResponse 200
                            (BodyText (chat_body (lit "Hi")
                                         (lit "gpt-4o-mini")))))
              sample_world)).
Proof.
  apply (dispatch_keeps_message_ids_distinct sample_syntax_message
           sample_type_message ModelChat (lit "hello") (lit "auto")
           (Responded (mkResponse 200
                         (BodyText (chat_body (lit "Hi")
                                      (lit "gpt-4o-mini")))))
           sample_world).
  - exact sample_uuids_injective.
  - intros i Hi. destruct Hi.
  - constructor.
Defined.

Lemma click_send_modelId_witness :
  let w := select_model (String_ 12) (type_input (lit "hello") sample_world) in
  map (fun x => body (fst x))
    (net (click_send sample_syntax_message sample_type_message w))
  = [Some (JObject [(lit "query", JString (lit "hello"));
                    (lit "modelId", JNumber (NumInt 12))])].
Proof.
  pose proof (click_send_modelId sample_syntax_message sample_type_message
                (select_model (String_ 12)
                   (type_input (lit "hello") sample_world))
                [Llm.mk 3 (lit "gpt-4o-mini") (lit "OpenAI") None None true;
                 Llm.mk 12 (lit "llama") (lit "Meta") None None false]
                eq_refl eq_refl) as H.
  assert (Hs : forall m,
             In m [Llm.mk 3 (lit "gpt-4o-mini") (lit "OpenAI") None None true;
                   Llm.mk 12 (lit "llama") (lit "Meta") None None false] ->
             isSafeInteger (Llm.id m) = true).
  { intros m [<- | [<- | []]]; reflexivity. }
  specialize (H Hs). cbv zeta in H.
  assert (Hin : In (ChatPage.selectedModel
                      (chat (state (select_model (String_ 12)
                                      (type_input (lit "hello")
                                         sample_world)))))
                  (option_values
                     [Llm.mk 3 (lit "gpt-4o-mini") (lit "OpenAI") None None
                        true;
                      Llm.mk 12 (lit "llama") (lit "Meta") None None false])).
  { right. right. left. reflexivity. }
  destruct (H Hin) as [[_ _] | _]; reflexivity.
Defined.

Lemma chat_success_appends_ai_witness :
  let w2 := dispatch sample_syntax_message sample_type_message ModelChat
              (lit "hello") (lit "auto")
              (Responded (mkResponse 200
                            (BodyText (object1 (lit "response") (lit "Hi")))))
              sample_world in
  ChatPage.messages (chat (state w2))
  = [mkChatMessage (lit "uuid-0") user (Some (JString (lit "hello"))) None;
     mkChatMessage (lit "uuid-1") ai (Some (JString (lit "Hi"))) None]
  /\ toasts w2 = [].
Proof.
  apply (chat_success_appends_ai sample_syntax_message sample_type_message
           (lit "hello") (lit "auto") (object1 (lit "response") (lit "Hi"))
           200 [(lit "response", JString (lit "Hi"))] sample_world);
    reflexivity.
Defined.
